(** * A shallow embedding of [yledl/backends.py]

    The downloader backends of yle-dl, the subprocess chain runner and the
    backend registry, modelled in a state and exception monad.  The state
    holds the part of the file system the code inspects, the log, a trace of
    the operating-system calls the code makes, and the one per-instance
    mutable attribute of a downloader ([_cached_output_file]).  Answers the
    operating system gives (errors of [Popen], exit codes, interrupts) come
    from an oracle record [Os]. *)

From Stdlib Require Import String Ascii List ZArith Bool Lia Arith.
From Stdlib Require Import DecimalString DecimalNat.
Import ListNotations.
Open Scope string_scope.

(** ** Python built-ins used by the module *)

(** [str(n)] for a non-negative Python int. *)
Definition py_str_nat (n : nat) : string :=
  NilZero.string_of_uint (Nat.to_uint n).

(** [str(z)] for a Python int. *)
Definition py_str_int (z : Z) : string :=
  NilZero.string_of_int (Z.to_int z).

(** Truthiness of the optional values of the module ([None], [''], [0]). *)
Definition str_truthy (s : string) : bool :=
  negb (String.eqb s "").

Definition opt_str_truthy (o : option string) : bool :=
  match o with Some s => str_truthy s | None => false end.

Definition opt_int_truthy (o : option Z) : bool :=
  match o with Some z => negb (Z.eqb z 0) | None => false end.

(** [c in s] for a one-character [c]. *)
Fixpoint str_contains_char (c : ascii) (s : string) : bool :=
  match s with
  | EmptyString => false
  | String a s' => Ascii.eqb a c || str_contains_char c s'
  end.

(** [s.rfind(c)]: the index of the last [c] in [s], or -1. *)
Fixpoint rfind_from (c : ascii) (s : string) (pos : Z) (found : Z) : Z :=
  match s with
  | EmptyString => found
  | String a s' =>
      rfind_from c s' (pos + 1) (if Ascii.eqb a c then pos else found)
  end.

Definition rfind (c : ascii) (s : string) : Z := rfind_from c s 0 (-1).

(** [p[i:i+1]] for [0 <= i < len(p)]. *)
Definition char_at (p : string) (i : nat) : option ascii := String.get i p.

(** [p.startswith(c)] and [p.endswith(c)] for one-character [c]. *)
Definition starts_with_char (c : ascii) (p : string) : bool :=
  match p with String a _ => Ascii.eqb a c | EmptyString => false end.

Definition ends_with_char (c : ascii) (p : string) : bool :=
  match char_at p (String.length p - 1) with
  | Some a => (0 <? String.length p)%nat && Ascii.eqb a c
  | None => false
  end.

(** [sep.join(xs)]. *)
Fixpoint str_join (sep : string) (xs : list string) : string :=
  match xs with
  | [] => ""
  | [x] => x
  | x :: xs' => x ++ sep ++ str_join sep xs'
  end.

(** [posixpath.splitext] (through [genericpath._splitext] with [sep = '/'],
    [altsep = None], [extsep = '.']):
<<
    sepIndex = p.rfind(sep)
    dotIndex = p.rfind(extsep)
    if dotIndex > sepIndex:
        filenameIndex = sepIndex + 1
        while filenameIndex < dotIndex:
            if p[filenameIndex:filenameIndex+1] != extsep:
                return p[:dotIndex], p[dotIndex:]
            filenameIndex += 1
    return p, p[:0]
>> *)
Definition splitext (p : string) : string * string :=
  let sepIndex := rfind "/" p in
  let dotIndex := rfind "." p in
  if Z.ltb sepIndex dotIndex then
    let first := Z.to_nat (sepIndex + 1) in
    let di := Z.to_nat dotIndex in
    if existsb (fun i => match char_at p i with
                         | Some a => negb (Ascii.eqb a ".")
                         | None => false
                         end) (seq first (di - first))
    then (substring 0 di p, substring di (String.length p - di) p)
    else (p, "")
  else (p, "").

(** [posixpath.join(a, b)]. *)
Definition path_join (a b : string) : string :=
  if starts_with_char "/" b then b
  else if negb (str_truthy a) || ends_with_char "/" a then a ++ b
  else a ++ "/" ++ b.

(** ** Run-time model: exceptions, state, operating system *)

(** The exceptions the module raises or catches. *)
Inductive exc :=
| OSError (strerror : string)
| KeyboardInterrupt
| TypeError
| UnboundLocalError.

Inductive result (A : Type) :=
| Ok (a : A)
| Raise (e : exc).
Arguments Ok {A} a.
Arguments Raise {A} e.

(** Entries of the file system: a regular file or a directory, with the
    size [os.path.getsize] reports. *)
Inductive fs_entry :=
| RegularFile (size : Z)
| Directory (size : Z).

Inductive level := DEBUG | INFO | WARNING | ERROR.

(** Operating-system calls the code makes, in order. *)
Inductive event :=
| EvPopen (i : nat) (args : list string) (stdin_from_prev : bool)
          (stdout_piped : bool) (env : option (list (string * string)))
          (sigterm_when_parent_dies : bool)
| EvCloseStdout (i : nat)
| EvWait (pid : Z)
| EvKill (pid : Z) (signal : Z)
| EvRemove (path : string)
| EvListdir (path : string).

Definition SIGINT : Z := 2.

Record St := mkSt {
  st_fs : list (string * fs_entry);     (** paths on disk *)
  st_cwd : list string;                 (** [os.listdir('.')] *)
  st_log : list (level * string);
  st_events : list event;
  st_cached_output_file : option string (** [self._cached_output_file] *)
}.

(** Answers of the operating system. *)
Record Os := mkOs {
  os_windows : bool;                        (** [platform.system() == 'Windows'] *)
  os_debug : bool;                          (** [logger.isEnabledFor(logging.DEBUG)] *)
  os_popen_error : nat -> list string -> option string;
                                            (** [Popen] of command [i] raises [OSError] *)
  os_pid : nat -> Z;                        (** pid of process [i] *)
  os_exit_code : nat -> Z;                  (** exit status of process [i] *)
  os_interrupt_wait : bool;                 (** Ctrl-C arrives while waiting on the head *)
  os_kill_error : option string;            (** [os.kill] raises [OSError] *)
  os_interrupt_rewait : bool;               (** Ctrl-C arrives again in the second wait *)
  os_getsize_error : string -> option string;
  os_remove_error : string -> option string
}.

Definition M (A : Type) := Os -> St -> result A * St.

Definition ret {A} (a : A) : M A := fun _ s => (Ok a, s).

Definition bind {A B} (m : M A) (k : A -> M B) : M B :=
  fun os s =>
    match m os s with
    | (Ok a, s') => k a os s'
    | (Raise e, s') => (Raise e, s')
    end.

Notation "x <- m ;; k" := (bind m (fun x => k))
  (at level 61, m at next level, right associativity).
Notation "m ;; k" := (bind m (fun _ => k))
  (at level 61, right associativity).

Definition raise {A} (e : exc) : M A := fun _ s => (Raise e, s).

(** [try: m except ...]: the handler gets the exception and re-raises what
    it does not catch. *)
Definition try_except {A} (m : M A) (handler : exc -> M A) : M A :=
  fun os s =>
    match m os s with
    | (Ok a, s') => (Ok a, s')
    | (Raise e, s') => handler e os s'
    end.

Definition ask : M Os := fun os s => (Ok os, s).
Definition get : M St := fun _ s => (Ok s, s).
Definition put (s : St) : M unit := fun _ _ => (Ok tt, s).

Definition log (l : level) (msg : string) : M unit :=
  fun _ s => (Ok tt, mkSt (st_fs s) (st_cwd s) (st_log s ++ [(l, msg)])
                          (st_events s) (st_cached_output_file s)).

Definition emit (e : event) : M unit :=
  fun _ s => (Ok tt, mkSt (st_fs s) (st_cwd s) (st_log s)
                          (st_events s ++ [e]) (st_cached_output_file s)).

Definition set_cache (v : option string) : M unit :=
  fun _ s => (Ok tt, mkSt (st_fs s) (st_cwd s) (st_log s) (st_events s) v).

Definition fs_lookup (fs : list (string * fs_entry)) (p : string)
  : option fs_entry :=
  match find (fun e => String.eqb (fst e) p) fs with
  | Some (_, e) => Some e
  | None => None
  end.

Definition path_exists_in (fs : list (string * fs_entry)) (p : string) : bool :=
  match fs_lookup fs p with Some _ => true | None => false end.

(** [os.path.exists(p)] *)
Definition path_exists (p : string) : M bool :=
  fun _ s => (Ok (path_exists_in (st_fs s) p), s).

(** [os.path.isfile(p)] *)
Definition path_isfile (p : string) : M bool :=
  fun _ s => (Ok (match fs_lookup (st_fs s) p with
                  | Some (RegularFile _) => true
                  | _ => false
                  end), s).

(** [os.path.getsize(p)] *)
Definition getsize (p : string) : M Z :=
  fun os s =>
    match os_getsize_error os p with
    | Some err => (Raise (OSError err), s)
    | None =>
        match fs_lookup (st_fs s) p with
        | Some (RegularFile n) | Some (Directory n) => (Ok n, s)
        | None => (Raise (OSError "No such file or directory"), s)
        end
    end.

(** [os.remove(p)] *)
Definition os_remove (p : string) : M unit :=
  fun os s =>
    let s1 := mkSt (st_fs s) (st_cwd s) (st_log s) (st_events s ++ [EvRemove p])
                   (st_cached_output_file s) in
    match os_remove_error os p, fs_lookup (st_fs s) p with
    | Some err, _ => (Raise (OSError err), s1)
    | None, None => (Raise (OSError "No such file or directory"), s1)
    | None, Some (Directory _) => (Raise (OSError "Is a directory"), s1)
    | None, Some (RegularFile _) =>
        (Ok tt, mkSt (filter (fun e => negb (String.eqb (fst e) p)) (st_fs s))
                     (st_cwd s) (st_log s) (st_events s1) (st_cached_output_file s))
    end.

(** [os.listdir('.')] *)
Definition listdir_cwd : M (list string) :=
  emit (EvListdir ".") ;; s <- get ;; ret (st_cwd s).

(** ** Result codes ([yledl.exitcodes]) *)

Inductive rd := RD_SUCCESS | RD_FAILED | RD_INCOMPLETE | RD_SUBPROCESS_EXECUTE_FAILED.

Definition rd_eqb (a b : rd) : bool :=
  match a, b with
  | RD_SUCCESS, RD_SUCCESS | RD_FAILED, RD_FAILED
  | RD_INCOMPLETE, RD_INCOMPLETE
  | RD_SUBPROCESS_EXECUTE_FAILED, RD_SUBPROCESS_EXECUTE_FAILED => true
  | _, _ => false
  end.

(** ** [class Subprocess] *)

Module Subprocess.

Definition env := list (string * string).

(** [d[k] = v] on a dict kept in insertion order. *)
Fixpoint dict_set (d : env) (k v : string) : env :=
  match d with
  | [] => [(k, v)]
  | (k', v') :: d' =>
      if String.eqb k k' then (k, v) :: d' else (k', v') :: dict_set d' k v
  end.

(** [combine_envs(extra_environment)], [environ] being [os.environ]. *)
Definition combine_envs (environ : env) (extra_environment : option env)
  : option env :=
  match extra_environment with
  | Some ((_ :: _) as extra) =>
      Some (fold_left (fun d kv => dict_set d (fst kv) (snd kv)) extra environ)
  | _ => None
  end.

(** The [for i, args in enumerate(commands)] loop of [start_process]:
    [subprocess.Popen(args, stdin=..., stdout=..., env=env,
    preexec_fn=...)] for each command. *)
Fixpoint popen_all (commands : list (list string)) (i n : nat)
         (env : option env) : M unit :=
  match commands with
  | [] => ret tt
  | args :: rest =>
      os <- ask ;;
      let preexec := Nat.eqb i 0 && negb (os_windows os) in
      let stdin_from_prev := negb (Nat.eqb i 0) in
      let stdout_piped := negb (Nat.eqb i (n - 1)) in
      match os_popen_error os i args with
      | Some strerror => raise (OSError strerror)
      | None =>
          emit (EvPopen i args stdin_from_prev stdout_piped env preexec) ;;
          popen_all rest (S i) n env
      end
  end.

(** [for p in processes[:-1]: p.stdout.close()] *)
Fixpoint close_stdouts (i : nat) : M unit :=
  match i with
  | O => ret tt
  | S j => close_stdouts j ;; emit (EvCloseStdout j)
  end.

(** [start_process(commands, env)]: returns the pid of [processes[0]]. *)
Definition start_process (commands : list (list string)) (env : option env)
  : M Z :=
  match commands with
  | [] => raise TypeError  (* [assert commands] *)
  | _ =>
      popen_all commands 0 (length commands) env ;;
      close_stdouts (length commands - 1) ;;
      os <- ask ;;
      ret (os_pid os 0)
  end.

(** [process.wait()] on the head process; [again] marks the wait inside
    the [KeyboardInterrupt] handler. *)
Definition wait_process (pid : Z) (again : bool) : M Z :=
  emit (EvWait pid) ;;
  os <- ask ;;
  if (if again then os_interrupt_rewait os else os_interrupt_wait os)
  then raise KeyboardInterrupt
  else ret (os_exit_code os 0).

(** [os.kill(pid, sig)] *)
Definition kill (pid sig : Z) : M unit :=
  os <- ask ;;
  match os_kill_error os with
  | Some strerror => raise (OSError strerror)
  | None => emit (EvKill pid sig)
  end.

Definition exit_code_to_rd (exit_code : Z) : rd :=
  if Z.eqb exit_code 0 then RD_SUCCESS else RD_FAILED.

(** Runs [m] and returns what it returned or raised. *)
Definition catch {A} (m : M A) : M (result A) :=
  fun os s => let (r, s') := m os s in (Ok r, s').

(** [Subprocess().execute(commands, extra_environment)], [environ] being
    [os.environ].  The [try] statement binds [process] only after
    [start_process] returned; its two [except] clauses are [handle]. *)
Definition execute (environ : env) (commands : list (list string))
           (extra_environment : option env) : M rd :=
  match commands with
  | [] => ret RD_SUCCESS
  | _ =>
      log DEBUG "Executing:" ;;
      let shell_command_string := str_join " | " (map (str_join " ") commands) in
      log DEBUG shell_command_string ;;
      let env := combine_envs environ extra_environment in
      let handle (process : option Z) (e : exc) : M rd :=
        match e with
        | KeyboardInterrupt =>
            match process with
            | Some pid =>
                try_except (kill pid SIGINT ;; wait_process pid true ;; ret tt)
                           (fun e' => match e' with
                                      | OSError _ => ret tt  (* died before we killed it *)
                                      | _ => raise e'
                                      end) ;;
                ret RD_INCOMPLETE
            | None => raise UnboundLocalError
            end
        | OSError strerror =>
            log ERROR ("Failed to execute " ++ shell_command_string) ;;
            log ERROR strerror ;;
            ret RD_SUBPROCESS_EXECUTE_FAILED
        | _ => raise e
        end in
      r <- catch (start_process commands env) ;;
      match r with
      | Raise e => handle None e
      | Ok process =>
          r' <- catch (wait_process process false) ;;
          match r' with
          | Ok code => ret (exit_code_to_rd code)
          | Raise e => handle (Some process) e
          end
      end
  end.

End Subprocess.

(** ** Downloaders *)

Inductive IOCapability := RESUME | PROXY | RATELIMIT | DURATION.

Definition cap_eqb (a b : IOCapability) : bool :=
  match a, b with
  | RESUME, RESUME | PROXY, PROXY | RATELIMIT, RATELIMIT
  | DURATION, DURATION => true
  | _, _ => false
  end.

(** [c in frozenset(...)] *)
Definition cap_mem (c : IOCapability) (caps : list IOCapability) : bool :=
  existsb (cap_eqb c) caps.

Record DownloadLimits := mkLimits {
  ratelimit : option Z;
  duration : option Z
}.

(** The attributes of the [io] object the backends read. *)
Record IOContext := mkIO {
  outputfilename : option string;
  destdir : option string;
  resume : bool;
  excludechars : string;
  proxy : option string;
  download_limits : DownloadLimits;
  rtmpdump_binary : string;
  hds_binary : list string;
  ffmpeg_binary : string
}.

(** The classes deriving from [BaseDownloader] that the model covers, with
    their constructor arguments. *)
Inductive backend_kind :=
| RTMPBackend (rtmpdump_args : list string)
| HDSBackend (url : string) (bitrate : option Z) (flavor_id : string)
| HLSBackend (url : string) (long_probe : bool)
| HLSAudioBackend (url : string) (long_probe : bool).

(** A downloader instance: [self.ext], [self.io_capabilities] and its class.
    [self._cached_output_file] lives in the state [St]. *)
Record Downloader := mkDownloader {
  ext : option string;
  io_capabilities : list IOCapability;
  kind : backend_kind
}.

Definition new_RTMPBackend (rtmpdump_args : list string) : Downloader :=
  mkDownloader (Some ".flv") [RESUME; DURATION] (RTMPBackend rtmpdump_args).

Definition new_HDSBackend (url : string) (bitrate : option Z) (flavor_id : string)
           (output_extension : option string) : Downloader :=
  mkDownloader output_extension [RESUME; PROXY; DURATION; RATELIMIT]
               (HDSBackend url bitrate flavor_id).

Definition new_HLSBackend (url : string) (output_extension : option string)
           (long_probe : bool) : Downloader :=
  mkDownloader output_extension [DURATION] (HLSBackend url long_probe).

Definition new_HLSAudioBackend (url : string) (output_extension : option string)
           (long_probe : bool) : Downloader :=
  mkDownloader output_extension [DURATION] (HLSAudioBackend url long_probe).

Section Downloaders.

(** [yledl.utils.sane_filename] and [os.environ]: collaborators outside the
    module, taken as arbitrary. *)
Variable sane_filename : string -> string -> string.
Variable environ : Subprocess.env.

(** [BaseDownloader.warn_on_unsupported_feature(io)] *)
Definition warn_on_unsupported_feature (self : Downloader) (io : IOContext) : M unit :=
  let caps := io_capabilities self in
  (if resume io && negb (cap_mem RESUME caps)
   then log WARNING "Resume not supported on this stream" else ret tt) ;;
  (if opt_str_truthy (proxy io) && negb (cap_mem PROXY caps)
   then log WARNING "Proxy not supported on this stream. Trying to continue anyway"
   else ret tt) ;;
  (if opt_int_truthy (ratelimit (download_limits io)) && negb (cap_mem RATELIMIT caps)
   then log WARNING "Rate limiting not supported on this stream" else ret tt) ;;
  (if opt_int_truthy (duration (download_limits io)) && negb (cap_mem DURATION caps)
   then log WARNING "--duration will be ignored on this stream" else ret tt).

(** The [while] loop of [next_available_filename].  The loop runs at most
    once per path on disk (its candidates are pairwise distinct); [fuel]
    is that bound. *)
Fixpoint next_available_loop (fuel : nat) (basename ext' : string) (i : nat)
         (filename : string) : M string :=
  match fuel with
  | O => ret filename
  | S fuel' =>
      b <- path_exists filename ;;
      if b then
        log INFO (filename ++ " exists, trying an alternative name") ;;
        next_available_loop fuel' basename ext' (S i)
                            (basename ++ "-" ++ py_str_nat i ++ ext')
      else ret filename
  end.

(** [BaseDownloader.next_available_filename(proposed)]; [os.path.exists] is
    asked about the path itself (its file-system encoding is left out). *)
Definition next_available_filename (proposed : string) : M string :=
  s <- get ;;
  let '(basename, ext') := splitext proposed in
  next_available_loop (S (length (st_fs s))) basename ext' 1 proposed.

(** [x or default] for an optional string [x]. *)
Definition str_or (x : option string) (default : string) : string :=
  if opt_str_truthy x then match x with Some e => e | None => default end
  else default.

(** [BaseDownloader.outputfile_from_clip_title(clip_title, io, resume)] *)
Definition outputfile_from_clip_title (self : Downloader) (clip_title : string)
           (io : IOContext) (resume' : bool) : M string :=
  s <- get ;;
  if opt_str_truthy (st_cached_output_file s) then
    ret (str_or (st_cached_output_file s) "")
  else
    let ext' := str_or (ext self) ".flv" in
    let filename := sane_filename clip_title (excludechars io) ++ ext' in
    let filename := if opt_str_truthy (destdir io)
                    then path_join (str_or (destdir io) "") filename
                    else filename in
    filename <- (if resume' then ret filename else next_available_filename filename) ;;
    set_cache (Some filename) ;;
    ret filename.

(** [BaseDownloader.append_ext_if_missing(filename, default_ext)] *)
Definition append_ext_if_missing (filename : string) (default_ext : option string)
  : string :=
  if str_contains_char "." filename then filename
  else filename ++ str_or default_ext ".flv".

(** [BaseDownloader.replace_extension(filename, ext)]; [basename + None]
    raises [TypeError]. *)
Definition replace_extension (filename : string) (ext' : option string) : M string :=
  let '(basename, old_ext) := splitext filename in
  let differs := match ext' with Some e => negb (String.eqb old_ext e) | None => true end in
  if negb (str_truthy old_ext) || differs then
    (if str_truthy old_ext
     then log WARNING ("Unsupported extension " ++ old_ext ++ ". Replacing it with "
                       ++ match ext' with Some e => e | None => "None" end)
     else ret tt) ;;
    match ext' with
    | Some e => ret (basename ++ e)
    | None => raise TypeError
    end
  else ret filename.

(** [BaseDownloader._construct_output_filename(clip_title, io, force_extension)] *)
Definition construct_output_filename (self : Downloader) (clip_title : string)
           (io : IOContext) (force_extension : bool) : M string :=
  if opt_str_truthy (outputfilename io) then
    let f := str_or (outputfilename io) "" in
    if force_extension then replace_extension f (ext self)
    else ret (append_ext_if_missing f (ext self))
  else
    let resume_job := resume io && cap_mem RESUME (io_capabilities self) in
    outputfile_from_clip_title self clip_title io resume_job.

(** [output_filename(clip_title, io)]: [HLSBackend] (and its subclass)
    overrides it with [force_extension = False]. *)
Definition output_filename (self : Downloader) (clip_title : string) (io : IOContext)
  : M string :=
  match kind self with
  | HLSBackend _ _ | HLSAudioBackend _ _ => construct_output_filename self clip_title io false
  | _ => construct_output_filename self clip_title io true
  end.


(** [BaseDownloader.log_output_file(outputfile, done)] *)
Definition log_output_file (outputfile : string) (done : bool) : M unit :=
  if str_truthy outputfile && negb (String.eqb outputfile "-") then
    if done then log INFO ("Stream saved to " ++ outputfile)
    else log INFO ("Output file: " ++ outputfile)
  else ret tt.

(** [HDSBackend.adobehds_command_line(io, extra_args)] with
    [_bitrate_option] and [_limit_options]. *)
Definition adobehds_command_line (url : string) (bitrate : option Z)
           (io : IOContext) (extra_args : list string) : M (list string) :=
  os <- ask ;;
  let limits := download_limits io in
  ret (hds_binary io ++ ["--manifest"; url]
       ++ (if opt_int_truthy bitrate
           then ["--quality"; py_str_int (match bitrate with Some b => b | None => 0%Z end)]
           else [])
       ++ (if opt_int_truthy (ratelimit limits)
           then ["--maxspeed"; py_str_int (match ratelimit limits with Some r => r | None => 0%Z end)]
           else [])
       ++ (if opt_int_truthy (duration limits)
           then ["--duration"; py_str_int (match duration limits with Some d => d | None => 0%Z end)]
           else [])
       ++ (if opt_str_truthy (proxy io)
           then ["--proxy"; str_or (proxy io) ""; "--fproxy"] else [])
       ++ (if os_debug os then ["--debug"] else [])
       ++ extra_args)%list.

(** [HLSBackend.ffmpeg_command_line(io, output_options)] with
    [_probe_args] and [_duration_arg]. *)
Definition ffmpeg_command_line (url : string) (long_probe : bool)
           (io : IOContext) (output_options : list string) : M (list string) :=
  os <- ask ;;
  let loglevel := if os_debug os then "info" else "error" in
  ret ([ffmpeg_binary io; "-y"; "-loglevel"; loglevel; "-stats";
        "-thread_queue_size"; "512"]
       ++ (if long_probe then ["-probesize"; "80000000"] else [])
       ++ ["-i"; url]
       ++ (if opt_int_truthy (duration (download_limits io))
           then ["-t"; py_str_int (match duration (download_limits io) with
                                   | Some d => d | None => 0%Z end)]
           else [])
       ++ output_options)%list.

(** [build_args(clip_title, io)] of each class. *)
Definition build_args (self : Downloader) (clip_title : string) (io : IOContext)
  : M (list string) :=
  match kind self with
  | RTMPBackend rtmpdump_args =>
      o <- output_filename self clip_title io ;;
      ret ([rtmpdump_binary io] ++ rtmpdump_args ++ ["-o"; o]
           ++ (if resume io then ["-e"] else [])
           ++ (if opt_int_truthy (duration (download_limits io))
               then ["--stop"; py_str_int (match duration (download_limits io) with
                                           | Some d => d | None => 0%Z end)]
               else []))%list
  | HDSBackend url bitrate _ =>
      o <- output_filename self clip_title io ;;
      adobehds_command_line url bitrate io ["--delete"; "--outfile"; o]
  | HLSBackend url long_probe =>
      output_name <- output_filename self clip_title io ;;
      ffmpeg_command_line url long_probe io
        ["-bsf:a"; "aac_adtstoasc"; "-vcodec"; "copy"; "-acodec"; "copy";
         "file:" ++ output_name]
  | HLSAudioBackend url long_probe =>
      output_name <- output_filename self clip_title io ;;
      ffmpeg_command_line url long_probe io
        ["-map"; "0:4?"; "-f"; "mp3"; "file:" ++ output_name]
  end.

(** [ExternalDownloader.save_stream(clip_title, io)]; [extra_environment]
    is [None] for the modelled classes. *)
Definition external_save_stream (self : Downloader) (clip_title : string)
           (io : IOContext) : M rd :=
  args <- build_args self clip_title io ;;
  let env : option Subprocess.env := None in
  outputfile <- output_filename self clip_title io ;;
  log_output_file outputfile false ;;
  retcode <- Subprocess.execute environ [args] env ;;
  (if rd_eqb retcode RD_SUCCESS then log_output_file outputfile true else ret tt) ;;
  ret retcode.

(** [RTMPBackend.is_small_file(filename)] *)
Definition is_small_file (filename : string) : M bool :=
  try_except (n <- getsize filename ;; ret (Z.ltb n 1024))
             (fun e => match e with OSError _ => ret false | _ => raise e end).

(** [RTMPBackend.remove(filename)] *)
Definition remove (filename : string) : M unit :=
  try_except (os_remove filename)
             (fun e => match e with OSError _ => ret tt | _ => raise e end).

(** The fragment-file pattern of [HDSBackend.fragments_exist]:
    [re.match(r'.*_{flavor}_Seg[0-9]+-Frag[0-9]+$', x)], the flavor id
    escaped.  [.] does not match a newline; [$] matches at the end or before
    a final newline. *)
Definition newline : ascii := ascii_of_nat 10.

Definition is_digit (a : ascii) : bool :=
  (48 <=? nat_of_ascii a)%nat && (nat_of_ascii a <=? 57)%nat.

(** Strips [[0-9]+] (the longest run, which is the only run the rest of the
    pattern can follow). *)
Fixpoint strip_digits (s : string) : string :=
  match s with
  | String a s' => if is_digit a then strip_digits s' else s
  | EmptyString => s
  end.

Definition strip_digits1 (s : string) : option string :=
  match s with
  | String a _ => if is_digit a then Some (strip_digits s) else None
  | EmptyString => None
  end.

Definition strip_prefix (p s : string) : option string :=
  if String.prefix p s
  then Some (substring (String.length p) (String.length s - String.length p) s)
  else None.

(** [_{flavor}_Seg[0-9]+-Frag[0-9]+$] at the start of [s]. *)
Definition fragment_tail_match (flavor_id s : string) : bool :=
  match strip_prefix ("_" ++ flavor_id ++ "_Seg") s with
  | None => false
  | Some r =>
      match strip_digits1 r with
      | None => false
      | Some r1 =>
          match strip_prefix "-Frag" r1 with
          | None => false
          | Some r2 =>
              match strip_digits1 r2 with
              | Some EmptyString => true
              | Some (String a EmptyString) => Ascii.eqb a newline
              | _ => false
              end
          end
      end
  end.

(** [.*] takes some newline-free prefix, then the tail matches. *)
Definition fragment_name_match (flavor_id x : string) : bool :=
  existsb (fun k => negb (str_contains_char newline (substring 0 k x))
                    && fragment_tail_match flavor_id
                         (substring k (String.length x - k) x))
          (seq 0 (S (String.length x))).

(** [HDSBackend.fragments_exist(flavor_id)] *)
Definition fragments_exist (flavor_id : string) : M bool :=
  files <- listdir_cwd ;;
  ret (existsb (fragment_name_match flavor_id) files).

(** [save_stream(clip_title, io)] of each class. *)
Definition save_stream (self : Downloader) (clip_title : string) (io : IOContext)
  : M rd :=
  match kind self with
  | RTMPBackend _ =>
      filename <- output_filename self clip_title io ;;
      (if resume io then
         small <- is_small_file filename ;;
         if small then remove filename else ret tt
       else ret tt) ;;
      external_save_stream self clip_title io
  | HDSBackend _ _ flavor_id =>
      output_name <- output_filename self clip_title io ;;
      skip <- (if resume io && negb (String.eqb output_name "-") then
                 isf <- path_isfile output_name ;;
                 if isf then
                   fe <- fragments_exist flavor_id ;;
                   ret (negb fe)
                 else ret false
               else ret false) ;;
      if skip then
        log INFO (output_name ++ " has already been downloaded.") ;;
        ret RD_SUCCESS
      else external_save_stream self clip_title io
  | HLSBackend _ _ | HLSAudioBackend _ _ => external_save_stream self clip_title io
  end.

End Downloaders.

(** ** [class Backends] *)

Module Backends.

Definition ADOBEHDSPHP := "adobehdsphp".
Definition YOUTUBEDL := "youtubedl".
Definition RTMPDUMP := "rtmpdump".
Definition FFMPEG := "ffmpeg".
Definition WGET := "wget".

Definition default_order : list string :=
  [WGET; FFMPEG; ADOBEHDSPHP; YOUTUBEDL; RTMPDUMP].

Definition str_mem (x : string) (xs : list string) : bool :=
  existsb (String.eqb x) xs.

Definition is_valid_backend (backend_name : string) : bool :=
  str_mem backend_name default_order.

(** The loop of [parse_backends], [backends] being the list built so far. *)
Fixpoint parse_loop (backend_names backends : list string) : M (list string) :=
  match backend_names with
  | [] => ret backends
  | bn :: rest =>
      if negb (is_valid_backend bn) then
        log WARNING ("Invalid backend: " ++ bn) ;;
        parse_loop rest backends
      else if negb (str_mem bn backends) then parse_loop rest (backends ++ [bn])%list
      else parse_loop rest backends
  end.

Definition parse_backends (backend_names : list string) : M (list string) :=
  parse_loop backend_names [].

End Backends.

(** ** Streaming to standard output: [pipe] *)

Section Pipes.

(** [yledl.utils.which], [yledl.http.yledl_user_agent()] and [os.environ]:
    collaborators outside the module, taken as arbitrary. *)
Variable which : string -> option string.
Variable yledl_user_agent : string.
Variable environ : Subprocess.env.

(** [build_pipe_args(io)] of each modelled class. *)
Definition build_pipe_args (self : Downloader) (io : IOContext) : M (list string) :=
  match kind self with
  | RTMPBackend rtmpdump_args =>
      ret ([rtmpdump_binary io] ++ rtmpdump_args ++ ["-o"; "-"])%list
  | HDSBackend url bitrate _ => adobehds_command_line url bitrate io ["--play"]
  | HLSBackend url long_probe =>
      ffmpeg_command_line url long_probe io
        ["-vcodec"; "copy"; "-acodec"; "copy"; "-f"; "mpegts"; "pipe:1"]
  | HLSAudioBackend url long_probe =>
      ffmpeg_command_line url long_probe io ["-map"; "0:4?"; "-f"; "mp3"; "pipe:1"]
  end.

(** [HLSBackend.build_pipe_with_subtitles_args(io, subtitle_url)]; the
    audio subclass does not override it. *)
Definition build_pipe_with_subtitles_args (url : string) (long_probe : bool)
           (io : IOContext) (subtitle_url : string) : M (list string) :=
  ffmpeg_command_line url long_probe io
    ["-thread_queue_size"; "512"; "-i"; subtitle_url;
     "-vcodec"; "copy"; "-acodec"; "aac"; "-scodec"; "copy";
     "-f"; "matroska"; "pipe:1"].

(** [ExternalDownloader._mux_subtitles_command(ffmpeg_binary, subtitle_url)] *)
Definition mux_subtitles_command (ffmpeg_binary' : string) (subtitle_url : option string)
  : M (option (list string)) :=
  if negb (str_truthy ffmpeg_binary') || negb (opt_str_truthy subtitle_url) then ret None
  else if opt_str_truthy (which ffmpeg_binary') then
    ret (Some [ffmpeg_binary'; "-y"; "-i"; "pipe:0"; "-i"; str_or subtitle_url "";
               "-c"; "copy"; "-c:s"; "srt"; "-f"; "matroska"; "pipe:1"])
  else
    log WARNING (ffmpeg_binary' ++ " not found. Subtitles disabled.") ;;
    log WARNING "Set the path to ffmpeg using --ffmpeg" ;;
    ret None.

(** [ExternalDownloader.pipe(io, subtitle_url)] given the class's
    [build_pipe_args(io)] and [extra_environment(io)]. *)
Definition external_pipe_with (pipe_args : M (list string)) (extra_env : M (option Subprocess.env))
           (io : IOContext) (subtitle_url : option string) : M rd :=
  args <- pipe_args ;;
  let commands := [args] in
  env <- extra_env ;;
  subtitle_command <- mux_subtitles_command (ffmpeg_binary io) subtitle_url ;;
  let commands := match subtitle_command with
                  | Some c => (commands ++ [c])%list
                  | None => commands
                  end in
  Subprocess.execute environ commands env.

(** [ExternalDownloader.pipe] for the modelled classes, whose
    [extra_environment] is [None]. *)
Definition external_pipe (self : Downloader) (io : IOContext) (subtitle_url : option string)
  : M rd :=
  external_pipe_with (build_pipe_args self io) (ret None) io subtitle_url.

(** [HDSBackend.cleanup_cookies()] *)
Definition cleanup_cookies : M unit :=
  try_except (os_remove "Cookies.txt")
             (fun e => match e with OSError _ => ret tt | _ => raise e end).

(** [pipe(io, subtitle_url)] of each modelled class. *)
Definition pipe (self : Downloader) (io : IOContext) (subtitle_url : option string) : M rd :=
  match kind self with
  | RTMPBackend _ => external_pipe self io subtitle_url
  | HDSBackend _ _ _ =>
      res <- external_pipe self io subtitle_url ;;
      cleanup_cookies ;;
      ret res
  | HLSBackend url long_probe | HLSAudioBackend url long_probe =>
      commands <- (if opt_str_truthy subtitle_url
                   then a <- build_pipe_with_subtitles_args url long_probe io
                               (str_or subtitle_url "") ;; ret [a]
                   else a <- build_pipe_args self io ;; ret [a]) ;;
      let env : option Subprocess.env := None in
      Subprocess.execute environ commands env
  end.





End Pipes.

(** ** Reading the model's results *)

(** [d[k]] on a dict kept as an association list. *)
Definition env_lookup (d : Subprocess.env) (k : string) : option string :=
  match find (fun kv => String.eqb (fst kv) k) d with
  | Some (_, v) => Some v
  | None => None
  end.

(** The [Popen] calls and [stdout.close()] calls [start_process] makes for a
    chain, as events: process [i] reads the previous process's output unless
    it is the head, pipes its output unless it is the last, and only the
    head gets the parent-death signal (not on Windows); then every output
    pipe but the last one is closed. *)
Definition pipeline_events (windows : bool) (commands : list (list string))
           (env : option Subprocess.env) : list event :=
  let n := length commands in
  (map (fun p => EvPopen (fst p) (snd p) (negb (Nat.eqb (fst p) 0))
                         (negb (Nat.eqb (fst p) (n - 1))) env
                         (Nat.eqb (fst p) 0 && negb windows))
       (combine (seq 0 n) commands)
   ++ map EvCloseStdout (seq 0 (n - 1)))%list.

(** A string made of the digits 0-9 only. *)
Fixpoint all_digits (s : string) : bool :=
  match s with
  | EmptyString => true
  | String a s' => is_digit a && all_digits s'
  end.

(** ** The registry as the spec describes it *)

(** [dedup_keep_first xs]: each element at its first occurrence only (the
    head, then the rest without the head). *)
Fixpoint dedup_keep_first (xs : list string) : list string :=
  match xs with
  | [] => []
  | x :: r => x :: filter (fun y => negb (String.eqb y x)) (dedup_keep_first r)
  end.

(** The spec's [parse_backends]: the valid identifiers, duplicates removed,
    in first-occurrence order. *)
Definition spec_parse_backends (xs : list string) : list string :=
  dedup_keep_first (filter Backends.is_valid_backend xs).

(** ** Concrete inputs *)

(** A [sane_filename] that keeps the title. *)
Definition ex_sane (title _ : string) : string := title.

(** An operating system where every process starts and exits with [exit_code]. *)
Definition ex_os (exit_code : nat -> Z) (interrupt kill_fails : bool) : Os :=
  mkOs false false (fun _ _ => None) (fun i => Z.of_nat (100 + i)) exit_code
       interrupt (if kill_fails then Some "No such process" else None) false
       (fun _ => None) (fun _ => None).

Definition ex_io (outputfilename' : option string) (resume' : bool) : IOContext :=
  mkIO outputfilename' None resume' "*/|" None (mkLimits None None)
       "rtmpdump" ["php"; "AdobeHDS.php"] "ffmpeg".

Definition ex_st (fs : list (string * fs_entry)) (cwd : list string) : St :=
  mkSt fs cwd [] [] None.

(** A two-command chain, as [RTMPBackend] builds it with a pipe into ffmpeg. *)
Definition ex_cmds : list (list string) :=
  [["rtmpdump"; "-r"; "rtmp://h/a"; "-o"; "-"]; ["ffmpeg"; "-i"; "pipe:0"; "out.mkv"]].

(** An operating system on which the second command cannot be started. *)
Definition ex_os_launch_fail : Os :=
  mkOs false false (fun i _ => if Nat.eqb i 1 then Some "No such file or directory" else None)
       (fun i => Z.of_nat (100 + i)) (fun _ => 0%Z) false None false
       (fun _ => None) (fun _ => None).

Definition ex_hds : Downloader := new_HDSBackend "http://m/manifest.f4m" None "f1" (Some ".flv").

Definition ex_rtmp : Downloader := new_RTMPBackend ["-r"; "rtmp://h/a"].

(** * Proofs *)

(** ** The registry *)

Lemma filter_filter_and (f g : string -> bool) (l : list string) :
  filter g (filter f l) = filter (fun y => f y && g y) l.
Proof.
  induction l as [|y l IH]; simpl; [reflexivity|].
  destruct (f y); simpl; [destruct (g y); simpl; rewrite IH|]; reflexivity || exact IH.
Qed.

Lemma filter_notin (x : string) (l : list string) :
  ~ In x l -> filter (fun y => negb (String.eqb y x)) l = l.
Proof.
  induction l as [|y l IH]; intros Hn; simpl; [reflexivity|].
  assert (String.eqb y x = false) as ->
    by (apply String.eqb_neq; intros ->; apply Hn; left; reflexivity).
  simpl. f_equal. apply IH. intros H. apply Hn. right. exact H.
Qed.

Lemma in_dedup_keep_first (x : string) (l : list string) :
  In x (dedup_keep_first l) -> In x l.
Proof.
  induction l as [|y l IH]; simpl; [tauto|].
  intros [->|Hin]; [left; reflexivity|].
  apply filter_In in Hin. right. apply IH. tauto.
Qed.

Lemma filter_dedup_keep_first (f : string -> bool) (l : list string) :
  filter f (dedup_keep_first l) = dedup_keep_first (filter f l).
Proof.
  induction l as [|y l IH]; simpl; [reflexivity|].
  destruct (f y) eqn:Hf; simpl.
  - f_equal. rewrite !filter_filter_and, <- IH, filter_filter_and.
    apply filter_ext. intros z. apply andb_comm.
  - rewrite filter_filter_and.
    rewrite (filter_ext (fun z => negb (String.eqb z y) && f z)
                        (fun z => f z && negb (String.eqb z y)))
      by (intros z; apply andb_comm).
    rewrite <- filter_filter_and, IH. apply filter_notin.
    intros Hin. apply in_dedup_keep_first, filter_In in Hin.
    destruct Hin; congruence.
Qed.

Lemma str_mem_app (x : string) (a b : list string) :
  Backends.str_mem x (a ++ b)%list = Backends.str_mem x a || Backends.str_mem x b.
Proof. unfold Backends.str_mem. apply existsb_app. Qed.

Lemma parse_loop_spec (xs acc : list string) (os : Os) (st : St) :
  fst (Backends.parse_loop xs acc os st)
  = Ok (acc ++ dedup_keep_first
                 (filter (fun x => Backends.is_valid_backend x
                                   && negb (Backends.str_mem x acc)) xs))%list.
Proof.
  revert acc st.
  induction xs as [|x xs IH]; intros acc st; simpl.
  - rewrite app_nil_r. reflexivity.
  - destruct (Backends.is_valid_backend x) eqn:Hv; simpl.
    + destruct (Backends.str_mem x acc) eqn:Hm; simpl.
      * apply IH.
      * rewrite IH. f_equal.
        rewrite <- app_assoc. simpl. f_equal. f_equal.
        rewrite filter_dedup_keep_first, filter_filter_and. f_equal.
        apply filter_ext. intros y.
        rewrite str_mem_app. simpl.
        destruct (Backends.is_valid_backend y), (Backends.str_mem y acc),
                 (String.eqb y x); reflexivity.
    + unfold bind, log. apply IH.
Qed.

Lemma parse_backends_spec (xs : list string) (os : Os) (st : St) :
  fst (Backends.parse_backends xs os st) = Ok (spec_parse_backends xs).
Proof.
  unfold Backends.parse_backends, spec_parse_backends.
  rewrite parse_loop_spec. simpl. f_equal. f_equal.
  apply filter_ext. intros x. rewrite andb_true_r. reflexivity.
Qed.

Lemma filter_all_true (f : string -> bool) (l : list string) :
  (forall x, In x l -> f x = true) -> filter f l = l.
Proof.
  induction l as [|y l IH]; intros H; simpl; [reflexivity|].
  rewrite H by (left; reflexivity). f_equal. apply IH.
  intros x Hx. apply H. right. exact Hx.
Qed.

Lemma dedup_keep_first_nodup (l : list string) :
  NoDup l -> dedup_keep_first l = l.
Proof.
  induction l as [|y l IH]; intros Hnd; simpl; [reflexivity|].
  inversion Hnd as [|? ? Hnin Hnd']; subst.
  rewrite IH by exact Hnd'. f_equal. apply filter_notin. exact Hnin.
Qed.

Lemma dedup_keep_first_NoDup (l : list string) : NoDup (dedup_keep_first l).
Proof.
  induction l as [|y l IH]; simpl; constructor.
  - intros Hin. apply filter_In in Hin.
    destruct Hin as [_ Hin]. rewrite String.eqb_refl in Hin. discriminate.
  - apply NoDup_filter. exact IH.
Qed.

Lemma spec_parse_backends_idem (xs : list string) :
  spec_parse_backends (spec_parse_backends xs) = spec_parse_backends xs.
Proof.
  unfold spec_parse_backends at 1.
  rewrite filter_all_true.
  - apply dedup_keep_first_nodup. apply dedup_keep_first_NoDup.
  - intros x Hx. unfold spec_parse_backends in Hx.
    apply in_dedup_keep_first, filter_In in Hx. tauto.
Qed.

(** C4: [parse_backends] never raises, keeps the valid identifiers at their
    first occurrence, in order, is idempotent, and maps
    [["wget","bogus","ffmpeg","wget"]] to [["wget","ffmpeg"]]. *)
Theorem parse_backends_first_occurrences (xs : list string) (os : Os) (st : St) :
  fst (Backends.parse_backends xs os st) = Ok (spec_parse_backends xs)
  /\ fst (Backends.parse_backends (spec_parse_backends xs) os st)
     = Ok (spec_parse_backends xs)
  /\ fst (Backends.parse_backends ["wget"; "bogus"; "ffmpeg"; "wget"] os st)
     = Ok ["wget"; "ffmpeg"].
Proof.
  split; [apply parse_backends_spec|split].
  - rewrite parse_backends_spec, spec_parse_backends_idem. reflexivity.
  - reflexivity.
Qed.

(** ** Capability warnings *)

(** Whether [io] requests option [c] (Python truthiness of the attribute). *)
Definition requested (io : IOContext) (c : IOCapability) : bool :=
  match c with
  | RESUME => resume io
  | PROXY => opt_str_truthy (proxy io)
  | RATELIMIT => opt_int_truthy (ratelimit (download_limits io))
  | DURATION => opt_int_truthy (duration (download_limits io))
  end.

Definition unsupported_warning (c : IOCapability) : string :=
  match c with
  | RESUME => "Resume not supported on this stream"
  | PROXY => "Proxy not supported on this stream. Trying to continue anyway"
  | RATELIMIT => "Rate limiting not supported on this stream"
  | DURATION => "--duration will be ignored on this stream"
  end.

Definition with_log (st : St) (l : list (level * string)) : St :=
  mkSt (st_fs st) (st_cwd st) (st_log st ++ l) (st_events st)
       (st_cached_output_file st).

(** C6: [warn_on_unsupported_feature] returns normally, leaves everything but
    the log alone, and logs one warning, and nothing else, for each of
    resume, proxy, ratelimit, duration that is requested and not in the
    backend's capability set. *)
Theorem warn_on_unsupported_feature_warnings (self : Downloader)
        (io : IOContext) (os : Os) (st : St) :
  warn_on_unsupported_feature self io os st
  = (Ok tt,
     with_log st
       (map (fun c => (WARNING, unsupported_warning c))
            (filter (fun c => requested io c && negb (cap_mem c (io_capabilities self)))
                    [RESUME; PROXY; RATELIMIT; DURATION]))).
Proof.
  destruct st. unfold warn_on_unsupported_feature, with_log, bind, log, ret. cbn.
  destruct (resume io && negb (cap_mem RESUME (io_capabilities self)));
  destruct (opt_str_truthy (proxy io) && negb (cap_mem PROXY (io_capabilities self)));
  destruct (opt_int_truthy (ratelimit (download_limits io))
            && negb (cap_mem RATELIMIT (io_capabilities self)));
  destruct (opt_int_truthy (duration (download_limits io))
            && negb (cap_mem DURATION (io_capabilities self)));
  cbn; rewrite ?app_nil_r, <- ?app_assoc; reflexivity.
Qed.

(** ** Explicit output names of the segment-playlist backends *)

(** C10: for [HLSBackend] and [HLSAudioBackend], an explicit output file
    name containing a '.' anywhere is kept as it is; one without a '.' gets
    the backend's extension, or ".flv" when the backend has none. *)
Theorem hls_output_filename_explicit
        (sane_filename : string -> string -> string) (self : Downloader)
        (url : string) (long_probe : bool) (clip_title : string)
        (io : IOContext) (os : Os) (st : St) (f : string)
        (Hkind : kind self = HLSBackend url long_probe
                 \/ kind self = HLSAudioBackend url long_probe)
        (Hout : outputfilename io = Some f) (Hne : f <> "") :
  (str_contains_char "." f = true ->
   output_filename sane_filename self clip_title io os st = (Ok f, st))
  /\ (str_contains_char "." f = false -> opt_str_truthy (ext self) = false ->
      output_filename sane_filename self clip_title io os st = (Ok (f ++ ".flv"), st))
  /\ (forall e, str_contains_char "." f = false -> ext self = Some e -> e <> "" ->
      output_filename sane_filename self clip_title io os st = (Ok (f ++ e), st)).
Proof.
  assert (Hf : str_truthy f = true)
    by (unfold str_truthy; apply negb_true_iff, String.eqb_neq; exact Hne).
  assert (Hc : output_filename sane_filename self clip_title io os st
               = (Ok (append_ext_if_missing f (ext self)), st)).
  { unfold output_filename.
    destruct Hkind as [Hk|Hk]; rewrite Hk;
      unfold construct_output_filename, str_or, ret; rewrite Hout; simpl;
      rewrite Hf; reflexivity. }
  rewrite Hc. unfold append_ext_if_missing, str_or. split; [|split].
  - intros Hd. rewrite Hd. reflexivity.
  - intros Hd He. rewrite Hd, He. reflexivity.
  - intros e Hd He Hne'. rewrite Hd, He. simpl.
    assert (str_truthy e = true) as ->
      by (unfold str_truthy; apply negb_true_iff, String.eqb_neq; exact Hne').
    reflexivity.
Qed.

(** ** The output-name cache *)

Lemma append_nonempty_r (a b : string) : b <> "" -> a ++ b <> "".
Proof. destruct a; simpl; [tauto|discriminate]. Qed.

Lemma str_or_flv_nonempty (x : option string) : str_or x ".flv" <> "".
Proof.
  unfold str_or, opt_str_truthy, str_truthy.
  destruct x as [e|]; simpl; [|discriminate].
  destruct (String.eqb_spec e ""); simpl; [discriminate|exact n].
Qed.

Lemma path_join_nonempty (a b : string) : b <> "" -> path_join a b <> "".
Proof.
  intros Hb. unfold path_join.
  destruct (starts_with_char "/" b); [exact Hb|].
  destruct (negb (str_truthy a) || ends_with_char "/" a);
    apply append_nonempty_r; [exact Hb|].
  simpl. discriminate.
Qed.

Lemma next_available_loop_ok (fuel : nat) (basename ext' : string) (i : nat)
      (filename : string) (os : Os) (st : St) :
  filename <> "" ->
  exists r st', next_available_loop fuel basename ext' i filename os st = (Ok r, st')
                /\ r <> "" /\ st_fs st' = st_fs st
                /\ st_cached_output_file st' = st_cached_output_file st.
Proof.
  revert i filename st.
  induction fuel as [|fuel IH]; intros i filename st Hf; simpl.
  - exists filename, st. unfold ret. auto.
  - unfold bind, path_exists.
    destruct (path_exists_in (st_fs st) filename).
    + unfold log. cbv beta iota.
      destruct (IH (S i) (basename ++ "-" ++ py_str_nat i ++ ext')
                   (mkSt (st_fs st) (st_cwd st) (st_log st ++ [(INFO, filename ++ " exists, trying an alternative name")])
                         (st_events st) (st_cached_output_file st)))
        as (r & st' & Hrun & Hr & Hfs & Hc).
      { apply append_nonempty_r. simpl. discriminate. }
      exists r, st'. split; [exact Hrun|]. simpl in *. auto.
    + exists filename, st. unfold ret. auto.
Qed.

Lemma outputfile_from_clip_title_caches (sane_filename : string -> string -> string)
      (self : Downloader) (clip_title : string) (io : IOContext) (resume' : bool)
      (os : Os) (st : St) :
  exists p st', outputfile_from_clip_title sane_filename self clip_title io resume' os st
                = (Ok p, st')
                /\ str_truthy p = true /\ st_cached_output_file st' = Some p.
Proof.
  unfold outputfile_from_clip_title, bind, get.
  destruct (opt_str_truthy (st_cached_output_file st)) eqn:Hc.
  - unfold ret. destruct (st_cached_output_file st) as [c|] eqn:Hc'; [|discriminate].
    simpl in Hc. exists c, st. unfold str_or. simpl. rewrite Hc. auto.
  - set (name := let filename := sane_filename clip_title (excludechars io) ++ str_or (ext self) ".flv" in
                 if opt_str_truthy (destdir io) then path_join (str_or (destdir io) "") filename
                 else filename).
    assert (Hn : name <> "").
    { subst name. cbv zeta.
      assert (sane_filename clip_title (excludechars io) ++ str_or (ext self) ".flv" <> "")
        by (apply append_nonempty_r, str_or_flv_nonempty).
      destruct (opt_str_truthy (destdir io)); [apply path_join_nonempty|]; assumption. }
    assert (Hrun : exists p st1,
               (if resume' then ret name else next_available_filename name) os st = (Ok p, st1)
               /\ p <> "").
    { destruct resume'.
      - exists name, st. unfold ret. auto.
      - unfold next_available_filename, bind, get.
        destruct (splitext name) as [b e].
        destruct (next_available_loop_ok (S (length (st_fs st))) b e 1 name os st Hn)
          as (r & st' & Hr & Hne & _ & _).
        exists r, st'. auto. }
    destruct Hrun as (p & st1 & Hr & Hne).
    fold name. rewrite Hr. unfold set_cache, ret. exists p. eexists. split; [reflexivity|].
    split; [|reflexivity].
    unfold str_truthy. apply negb_true_iff, String.eqb_neq. exact Hne.
Qed.

(** C9: once [outputfile_from_clip_title] has returned [p], every later call
    on the same instance returns [p], whatever the clip title, [io],
    [resume] flag, operating system and file system of that call, as long as
    the cache attribute was not reassigned in between. *)
Theorem outputfile_from_clip_title_idempotent
        (sane_filename : string -> string -> string) (self : Downloader)
        (clip1 clip2 : string) (io1 io2 : IOContext) (resume1 resume2 : bool)
        (os1 os2 : Os) (st st1 st2 : St) (p : string)
        (Hfirst : outputfile_from_clip_title sane_filename self clip1 io1 resume1 os1 st
                  = (Ok p, st1))
        (Hcache : st_cached_output_file st2 = st_cached_output_file st1) :
  outputfile_from_clip_title sane_filename self clip2 io2 resume2 os2 st2 = (Ok p, st2).
Proof.
  destruct (outputfile_from_clip_title_caches sane_filename self clip1 io1 resume1 os1 st)
    as (p' & st' & Hrun & Ht & Hc).
  rewrite Hfirst in Hrun. injection Hrun as <- <-.
  unfold outputfile_from_clip_title, bind, get.
  rewrite Hcache, Hc. simpl. rewrite Ht. unfold str_or, ret. simpl.
  rewrite Ht. reflexivity.
Qed.

(** ** The subprocess chain *)

Definition with_events (st : St) (evs : list event) : St :=
  mkSt (st_fs st) (st_cwd st) (st_log st) (st_events st ++ evs)
       (st_cached_output_file st).

Lemma with_events_app (st : St) (a b : list event) :
  with_events (with_events st a) b = with_events st (a ++ b).
Proof. unfold with_events. simpl. rewrite app_assoc. reflexivity. Qed.

Lemma with_events_nil (st : St) : with_events st [] = st.
Proof. destruct st. unfold with_events. simpl. rewrite app_nil_r. reflexivity. Qed.

Lemma popen_all_ok (commands : list (list string)) (i n : nat)
      (env : option Subprocess.env) (os : Os) (st : St) :
  (forall j args, nth_error commands j = Some args -> os_popen_error os (i + j) args = None) ->
  exists evs, Subprocess.popen_all commands i n env os st = (Ok tt, with_events st evs).
Proof.
  revert i st. induction commands as [|args rest IH]; intros i st Hok; simpl.
  - exists []. rewrite with_events_nil. reflexivity.
  - unfold bind, ask.
    assert (Hi : os_popen_error os i args = None)
      by (rewrite <- (Nat.add_0_r i); apply (Hok 0); reflexivity).
    rewrite Hi.
    destruct (IH (S i) (with_events st [EvPopen i args (negb (Nat.eqb i 0))
                                             (negb (Nat.eqb i (n - 1))) env
                                             (Nat.eqb i 0 && negb (os_windows os))]))
      as (evs & Hrun).
    { intros j a Hj. replace (S i + j) with (i + S j) by lia.
      apply (Hok (S j)). exact Hj. }
    eexists. rewrite <- with_events_app. unfold emit. exact Hrun.
Qed.

Lemma popen_all_fail (commands : list (list string)) (i n : nat)
      (env : option Subprocess.env) (os : Os) (st : St)
      (j : nat) (args : list string) (strerror : string) :
  nth_error commands j = Some args ->
  os_popen_error os (i + j) args = Some strerror ->
  (forall j' a, j' < j -> nth_error commands j' = Some a ->
                os_popen_error os (i + j') a = None) ->
  exists evs, Subprocess.popen_all commands i n env os st
              = (Raise (OSError strerror), with_events st evs).
Proof.
  revert i j st. induction commands as [|a rest IH]; intros i j st Hj Herr Hbefore.
  - destruct j; discriminate.
  - simpl. unfold bind, ask. destruct j as [|j].
    + simpl in Hj. injection Hj as <-. rewrite Nat.add_0_r in Herr. rewrite Herr.
      exists []. rewrite with_events_nil. reflexivity.
    + assert (Hi : os_popen_error os i a = None)
        by (rewrite <- (Nat.add_0_r i); apply (Hbefore 0); [lia|reflexivity]).
      rewrite Hi.
      destruct (IH (S i) j (with_events st [EvPopen i a (negb (Nat.eqb i 0))
                                              (negb (Nat.eqb i (n - 1))) env
                                              (Nat.eqb i 0 && negb (os_windows os))]))
        as (evs & Hrun).
      * exact Hj.
      * replace (S i + j) with (i + S j) by lia. exact Herr.
      * intros j' a' Hlt Ha'. replace (S i + j') with (i + S j') by lia.
        apply (Hbefore (S j')); [lia|exact Ha'].
      * eexists. rewrite <- with_events_app. unfold emit. exact Hrun.
Qed.

Lemma close_stdouts_ok (k : nat) (os : Os) (st : St) :
  exists evs, Subprocess.close_stdouts k os st = (Ok tt, with_events st evs).
Proof.
  revert st. induction k as [|k IH]; intros st; simpl.
  - exists []. rewrite with_events_nil. reflexivity.
  - unfold bind. destruct (IH st) as (evs & ->).
    exists (evs ++ [EvCloseStdout k])%list. rewrite <- with_events_app. reflexivity.
Qed.

Lemma start_process_ok (commands : list (list string)) (env : option Subprocess.env)
      (os : Os) (st : St) :
  commands <> [] ->
  (forall j args, nth_error commands j = Some args -> os_popen_error os j args = None) ->
  exists evs, Subprocess.start_process commands env os st
              = (Ok (os_pid os 0), with_events st evs).
Proof.
  intros Hne Hok. unfold Subprocess.start_process.
  destruct commands as [|c cs]; [congruence|].
  unfold bind at 1.
  destruct (popen_all_ok (c :: cs) 0 (length (c :: cs)) env os st) as (evs & ->);
    [exact Hok|].
  unfold bind.
  destruct (close_stdouts_ok (length (c :: cs) - 1) os (with_events st evs)) as (evs2 & ->).
  exists (evs ++ evs2)%list. rewrite <- with_events_app. reflexivity.
Qed.

Lemma start_process_fail (commands : list (list string)) (env : option Subprocess.env)
      (os : Os) (st : St) (j : nat) (args : list string) (strerror : string) :
  nth_error commands j = Some args ->
  os_popen_error os j args = Some strerror ->
  (forall j' a, j' < j -> nth_error commands j' = Some a -> os_popen_error os j' a = None) ->
  exists evs, Subprocess.start_process commands env os st
              = (Raise (OSError strerror), with_events st evs).
Proof.
  intros Hj Herr Hbefore. unfold Subprocess.start_process.
  destruct commands as [|c cs]; [destruct j; discriminate|].
  unfold bind at 1.
  destruct (popen_all_fail (c :: cs) 0 (length (c :: cs)) env os st j args strerror)
    as (evs & ->); [exact Hj|exact Herr|exact Hbefore|].
  eexists. reflexivity.
Qed.

Lemma catch_bind {A B} (m : M A) (k : result A -> M B) (os : Os) (st : St) :
  bind (Subprocess.catch m) k os st = k (fst (m os st)) os (snd (m os st)).
Proof. unfold bind, Subprocess.catch. destruct (m os st). reflexivity. Qed.

Definition shell_command_string (commands : list (list string)) : string :=
  str_join " | " (map (str_join " ") commands).

(** C7: when starting a command of the chain fails with an operating-system
    error (the commands before it having started), [execute] returns
    [RD_SUBPROCESS_EXECUTE_FAILED] rather than raising, and logs the command
    line and the error message. *)
Theorem execute_launch_failure (environ : Subprocess.env)
        (commands : list (list string)) (extra : option Subprocess.env)
        (os : Os) (st : St) (j : nat) (args : list string) (strerror : string)
        (Hj : nth_error commands j = Some args)
        (Herr : os_popen_error os j args = Some strerror)
        (Hbefore : forall j' a, j' < j -> nth_error commands j' = Some a ->
                                os_popen_error os j' a = None) :
  exists st', Subprocess.execute environ commands extra os st
              = (Ok RD_SUBPROCESS_EXECUTE_FAILED, st')
              /\ st_log st' = app (st_log st)
                   [(DEBUG, "Executing:"); (DEBUG, shell_command_string commands);
                    (ERROR, "Failed to execute " ++ shell_command_string commands);
                    (ERROR, strerror)].
Proof.
  unfold Subprocess.execute.
  destruct commands as [|c cs]; [destruct j; discriminate|].
  unfold bind at 1, log at 1. cbv beta iota.
  unfold bind at 1, log at 1. cbv beta iota.
  rewrite catch_bind.
  lazymatch goal with
  | |- context [Subprocess.start_process ?cm ?e ?o ?s] =>
      destruct (start_process_fail cm e o s j args strerror Hj Herr Hbefore) as (evs & ->)
  end.
  simpl. eexists. split; [reflexivity|]. simpl.
  rewrite <- !app_assoc. reflexivity.
Qed.

(** C5: a Ctrl-C while [execute] waits on the head of a started chain makes
    it send SIGINT to the head, wait for the head again, and return
    [RD_INCOMPLETE]; when [os.kill] fails with an operating-system error,
    that error is swallowed and the result is still [RD_INCOMPLETE]. *)
Theorem execute_interrupt_incomplete (environ : Subprocess.env)
        (commands : list (list string)) (extra : option Subprocess.env)
        (os : Os) (st : St)
        (Hne : commands <> [])
        (Hok : forall j args, nth_error commands j = Some args ->
                              os_popen_error os j args = None)
        (Hint : os_interrupt_wait os = true)
        (Hre : os_interrupt_rewait os = false) :
  exists evs st',
    Subprocess.execute environ commands extra os st = (Ok RD_INCOMPLETE, st')
    /\ st_events st' = app (st_events st)
         (evs ++ [EvWait (os_pid os 0)]
          ++ match os_kill_error os with
             | None => [EvKill (os_pid os 0) SIGINT; EvWait (os_pid os 0)]
             | Some _ => []
             end)%list.
Proof.
  unfold Subprocess.execute.
  destruct commands as [|c cs]; [congruence|].
  unfold bind at 1, log at 1. cbv beta iota.
  unfold bind at 1, log at 1. cbv beta iota.
  rewrite catch_bind.
  lazymatch goal with
  | |- context [Subprocess.start_process ?cm ?e ?o ?s] =>
      destruct (start_process_ok cm e o s Hne Hok) as (evs & ->)
  end.
  cbv [bind ret raise emit ask try_except Subprocess.catch Subprocess.wait_process
       Subprocess.kill log fst snd with_events].
  rewrite Hint, Hre.
  destruct (os_kill_error os) as [err|];
    (eexists evs, _; split; [reflexivity|]);
    simpl; rewrite <- !app_assoc; reflexivity.
Qed.

(** C2 (as the code has it): for a chain whose commands all start and with
    no interrupt, [execute] returns [RD_FAILED] exactly when the head (first)
    process exits non-zero, and [RD_SUCCESS] otherwise; the exit status of
    the later commands is not consulted. *)
Theorem execute_result_of_head (environ : Subprocess.env)
        (commands : list (list string)) (extra : option Subprocess.env)
        (os : Os) (st : St)
        (Hne : commands <> [])
        (Hok : forall j args, nth_error commands j = Some args ->
                              os_popen_error os j args = None)
        (Hint : os_interrupt_wait os = false) :
  fst (Subprocess.execute environ commands extra os st)
  = Ok (if Z.eqb (os_exit_code os 0) 0 then RD_SUCCESS else RD_FAILED).
Proof.
  unfold Subprocess.execute.
  destruct commands as [|c cs]; [congruence|].
  unfold bind at 1, log at 1. cbv beta iota.
  unfold bind at 1, log at 1. cbv beta iota.
  rewrite catch_bind.
  lazymatch goal with
  | |- context [Subprocess.start_process ?cm ?e ?o ?s] =>
      destruct (start_process_ok cm e o s Hne Hok) as (evs & ->)
  end.
  cbv [bind ret raise emit ask Subprocess.catch Subprocess.wait_process fst snd].
  rewrite Hint. reflexivity.
Qed.

(** ** Fragmented-HTTP and segmented-download save paths *)

Definition is_popen (e : event) : bool :=
  match e with EvPopen _ _ _ _ _ _ => true | _ => false end.

(** Whether an external process was started. *)
Definition invokes_tool (st : St) : bool := existsb is_popen (st_events st).

(** C1 (as the code has it): when [io.resume] is set, the resolved output
    name is not "-", it is a regular file, and no entry of the working
    directory matches the flavor's fragment pattern, [HDSBackend.save_stream]
    returns [RD_SUCCESS] after listing the directory and logging, and starts
    no process. *)
Theorem hds_save_stream_skips_finished
        (sane_filename : string -> string -> string) (environ : Subprocess.env)
        (self : Downloader) (url : string) (bitrate : option Z) (flavor_id : string)
        (clip_title : string) (io : IOContext) (os : Os) (st st1 : St)
        (name : string) (size : Z)
        (Hkind : kind self = HDSBackend url bitrate flavor_id)
        (Hname : output_filename sane_filename self clip_title io os st = (Ok name, st1))
        (Hres : resume io = true) (Hdash : name <> "-")
        (Hfile : fs_lookup (st_fs st1) name = Some (RegularFile size))
        (Hnofrag : forallb (fun x => negb (fragment_name_match flavor_id x)) (st_cwd st1)
                   = true) :
  save_stream sane_filename environ self clip_title io os st
  = (Ok RD_SUCCESS,
     with_log (with_events st1 [EvListdir "."])
              [(INFO, name ++ " has already been downloaded.")]).
Proof.
  unfold save_stream. rewrite Hkind.
  cbv [bind]. rewrite Hname. cbv beta iota.
  rewrite Hres. simpl andb.
  assert (String.eqb name "-" = false) as -> by (apply String.eqb_neq; exact Hdash).
  cbv [negb andb path_isfile fragments_exist listdir_cwd bind emit get ret log].
  rewrite Hfile. cbv beta iota. cbn [st_cwd st_fs st_log st_events st_cached_output_file].
  assert (existsb (fragment_name_match flavor_id) (st_cwd st1) = false) as ->.
  { apply Bool.not_true_iff_false. intros Hex.
    apply existsb_exists in Hex. destruct Hex as (x & Hin & Hm).
    rewrite forallb_forall in Hnofrag. specialize (Hnofrag x Hin).
    rewrite Hm in Hnofrag. discriminate. }
  reflexivity.
Qed.

(** C8: with [io.resume] set, [RTMPBackend.save_stream] first deletes a
    resolved output file that is a regular file under 1024 bytes and then
    runs the download on the file system without it; when the file does not
    exist, or [os.path.getsize] or [os.remove] fails, the error is swallowed
    and the download runs on the unchanged file system, with the same
    result as without the check. *)
Theorem rtmp_save_stream_small_file
        (sane_filename : string -> string -> string) (environ : Subprocess.env)
        (self : Downloader) (rtmpdump_args : list string)
        (clip_title : string) (io : IOContext) (os : Os) (st st1 : St) (f : string)
        (Hkind : kind self = RTMPBackend rtmpdump_args)
        (Hres : resume io = true)
        (Hname : output_filename sane_filename self clip_title io os st = (Ok f, st1)) :
  (forall size,
      fs_lookup (st_fs st1) f = Some (RegularFile size) -> (size < 1024)%Z ->
      os_getsize_error os f = None -> os_remove_error os f = None ->
      save_stream sane_filename environ self clip_title io os st
      = external_save_stream sane_filename environ self clip_title io os
          (mkSt (filter (fun e => negb (String.eqb (fst e) f)) (st_fs st1))
                (st_cwd st1) (st_log st1) (app (st_events st1) [EvRemove f])
                (st_cached_output_file st1)))
  /\ (fs_lookup (st_fs st1) f = None \/ os_getsize_error os f <> None
      \/ os_remove_error os f <> None ->
      exists evs,
        save_stream sane_filename environ self clip_title io os st
        = external_save_stream sane_filename environ self clip_title io os
            (with_events st1 evs)).
Proof.
  assert (Hrun : save_stream sane_filename environ self clip_title io os st
                 = (b <- (small <- is_small_file f ;;
                          if small then remove f else ret tt) ;;
                    external_save_stream sane_filename environ self clip_title io) os st1).
  { unfold save_stream. rewrite Hkind. cbv [bind]. rewrite Hname. rewrite Hres.
    reflexivity. }
  rewrite Hrun. clear Hrun. split.
  - intros size Hl Hsz Hgs Hrm.
    cbv [bind is_small_file try_except getsize ret remove os_remove].
    rewrite Hgs, Hl. cbv beta iota.
    assert (Z.ltb size 1024 = true) as -> by (apply Z.ltb_lt; exact Hsz).
    rewrite Hrm, Hl. reflexivity.
  - intros Hcase.
    cbv [bind is_small_file try_except getsize ret remove os_remove raise].
    destruct (os_getsize_error os f) as [gerr|] eqn:Hgs.
    + exists []. rewrite with_events_nil. reflexivity.
    + destruct (fs_lookup (st_fs st1) f) as [[n|n]|] eqn:Hl.
      * destruct (Z.ltb n 1024); cbv beta iota.
        -- destruct Hcase as [Hc|[Hc|Hc]]; [discriminate|congruence|].
           destruct (os_remove_error os f) as [rerr|]; [|congruence].
           eexists [EvRemove f]. reflexivity.
        -- exists []. rewrite with_events_nil. reflexivity.
      * destruct (Z.ltb n 1024); cbv beta iota.
        -- eexists [EvRemove f].
           cbn [st_fs st_cwd st_log st_events st_cached_output_file]. rewrite Hl.
           destruct (os_remove_error os f); reflexivity.
        -- exists []. rewrite with_events_nil. reflexivity.
      * exists []. rewrite with_events_nil. reflexivity.
Qed.

(** ** Collision avoidance *)

Lemma string_app_nil_r (s : string) : s ++ "" = s.
Proof. induction s as [|c s IH]; simpl; [reflexivity|]. rewrite IH. reflexivity. Qed.

Lemma string_length_app (a b : string) :
  String.length (a ++ b) = String.length a + String.length b.
Proof. induction a as [|c a IH]; simpl; [reflexivity|]. rewrite IH. reflexivity. Qed.

Lemma string_app_inv_head (a b c : string) : a ++ b = a ++ c -> b = c.
Proof.
  induction a as [|x a IH]; simpl; [tauto|].
  intros H. injection H as H. apply IH. exact H.
Qed.

Lemma list_ascii_of_string_app (a b : string) :
  list_ascii_of_string (a ++ b) = (list_ascii_of_string a ++ list_ascii_of_string b)%list.
Proof. induction a as [|c a IH]; simpl; [reflexivity|]. rewrite IH. reflexivity. Qed.

Lemma string_app_inv_tail (a b c : string) : b ++ a = c ++ a -> b = c.
Proof.
  intros H. apply (f_equal list_ascii_of_string) in H.
  rewrite !list_ascii_of_string_app in H. apply app_inv_tail in H.
  rewrite <- (string_of_list_ascii_of_string b), <- (string_of_list_ascii_of_string c).
  rewrite H. reflexivity.
Qed.

Lemma substring_0_length (s : string) : substring 0 (String.length s) s = s.
Proof. induction s as [|c s IH]; simpl; [reflexivity|]. rewrite IH. reflexivity. Qed.

Lemma substring_split (n : nat) (s : string) :
  substring 0 n s ++ substring n (String.length s - n) s = s.
Proof.
  revert n. induction s as [|c s IH]; intros n.
  - destruct n; reflexivity.
  - destruct n as [|n].
    + simpl. rewrite substring_0_length. reflexivity.
    + simpl. rewrite IH. reflexivity.
Qed.

Lemma splitext_app (p : string) : fst (splitext p) ++ snd (splitext p) = p.
Proof.
  unfold splitext.
  destruct (Z.ltb (rfind "/" p) (rfind "." p)); [|apply string_app_nil_r].
  destruct (existsb _ _); simpl; [apply substring_split|apply string_app_nil_r].
Qed.

Lemma to_uint_not_nil (n : nat) : Nat.to_uint n <> Decimal.Nil.
Proof.
  intros H. pose proof (DecimalNat.Unsigned.of_to n) as Hn. rewrite H in Hn.
  simpl in Hn. subst n. discriminate.
Qed.

Lemma py_str_nat_inj (i j : nat) : py_str_nat i = py_str_nat j -> i = j.
Proof.
  unfold py_str_nat. intros H.
  apply (f_equal NilZero.uint_of_string) in H.
  rewrite !NilZero.usu in H by apply to_uint_not_nil.
  injection H as H. apply DecimalNat.Unsigned.to_uint_inj. exact H.
Qed.

(** The names [next_available_filename] tries, in order, as the spec lists
    them: [proposed], [basename-1+ext], [basename-2+ext], ... *)
Definition candidate_name (proposed : string) (k : nat) : string :=
  let '(basename, ext') := splitext proposed in
  if Nat.eqb k 0 then proposed else basename ++ "-" ++ py_str_nat k ++ ext'.

Lemma candidate_name_inj (p : string) (i j : nat) :
  candidate_name p i = candidate_name p j -> i = j.
Proof.
  pose proof (splitext_app p) as Hp. unfold candidate_name.
  destruct (splitext p) as [b e]. simpl in Hp.
  assert (Hlen : forall k, k <> 0 ->
            String.length (b ++ "-" ++ py_str_nat k ++ e) > String.length p).
  { intros k _. rewrite <- Hp. rewrite !string_length_app. simpl. lia. }
  destruct (Nat.eqb_spec i 0) as [->|Hi], (Nat.eqb_spec j 0) as [->|Hj];
    intros H; try reflexivity.
  - specialize (Hlen j Hj). rewrite <- H in Hlen. lia.
  - specialize (Hlen i Hi). rewrite H in Hlen. lia.
  - apply string_app_inv_head in H. simpl in H. injection H as H.
    apply string_app_inv_tail in H. apply py_str_nat_inj. exact H.
Qed.

Lemma path_exists_in_map_fst (fs : list (string * fs_entry)) (p : string) :
  path_exists_in fs p = true -> In p (map fst fs).
Proof.
  unfold path_exists_in, fs_lookup.
  destruct (find (fun e => String.eqb (fst e) p) fs) as [[q e]|] eqn:Hf; [|discriminate].
  intros _. apply find_some in Hf. destruct Hf as [Hin Heq].
  apply String.eqb_eq in Heq. simpl in Heq. subst q.
  apply in_map_iff. exists (p, e). auto.
Qed.

Lemma NoDup_map_inj {A B} (f : A -> B) (l : list A) :
  (forall x y, f x = f y -> x = y) -> NoDup l -> NoDup (map f l).
Proof.
  intros Hinj Hnd. induction Hnd as [|x l Hx Hnd IH]; simpl; constructor; [|exact IH].
  intros Hin. apply in_map_iff in Hin. destruct Hin as (y & Hy & Hyl).
  apply Hinj in Hy. subst y. contradiction.
Qed.

(** Among the first [length fs + 1] candidates one is not on disk. *)
Lemma candidate_free_exists (fs : list (string * fs_entry)) (p : string) :
  exists k, k <= length fs /\ path_exists_in fs (candidate_name p k) = false.
Proof.
  destruct (existsb (fun k => negb (path_exists_in fs (candidate_name p k)))
                    (seq 0 (S (length fs)))) eqn:Hex.
  - apply existsb_exists in Hex. destruct Hex as (k & Hk & Hf).
    apply in_seq in Hk. apply negb_true_iff in Hf. exists k. split; [lia|exact Hf].
  - exfalso.
    assert (Hincl : incl (map (candidate_name p) (seq 0 (S (length fs)))) (map fst fs)).
    { intros q Hq. apply in_map_iff in Hq. destruct Hq as (k & <- & Hk).
      apply path_exists_in_map_fst.
      destruct (path_exists_in fs (candidate_name p k)) eqn:He; [reflexivity|].
      assert (Hc : existsb (fun k => negb (path_exists_in fs (candidate_name p k)))
                           (seq 0 (S (length fs))) = true)
        by (apply existsb_exists; exists k; rewrite He; auto).
      congruence. }
    apply NoDup_incl_length in Hincl.
    + rewrite !length_map, length_seq in Hincl. lia.
    + apply NoDup_map_inj; [apply candidate_name_inj|apply seq_NoDup].
Qed.

Lemma least_index (P : nat -> bool) (n : nat) :
  P n = true -> exists k, k <= n /\ P k = true /\ forall j, j < k -> P j = false.
Proof.
  induction n as [n IH] using lt_wf_ind. intros Hn.
  destruct (existsb P (seq 0 n)) eqn:Hex.
  - apply existsb_exists in Hex. destruct Hex as (m & Hm & Hpm).
    apply in_seq in Hm. destruct (IH m ltac:(lia) Hpm) as (k & Hk & Hpk & Hlt).
    exists k. split; [lia|auto].
  - exists n. split; [lia|split; [exact Hn|]].
    intros j Hj. destruct (P j) eqn:Hpj; [|reflexivity].
    assert (existsb P (seq 0 n) = true)
      by (apply existsb_exists; exists j; split; [apply in_seq; lia|exact Hpj]).
    congruence.
Qed.

Lemma next_available_loop_first (fuel : nat) (p b e : string) (m k : nat)
      (os : Os) (st : St) :
  splitext p = (b, e) ->
  m <= k -> k < m + fuel ->
  path_exists_in (st_fs st) (candidate_name p k) = false ->
  (forall j, m <= j < k -> path_exists_in (st_fs st) (candidate_name p j) = true) ->
  exists st', next_available_loop fuel b e (S m) (candidate_name p m) os st
              = (Ok (candidate_name p k), st').
Proof.
  intros Hs. revert m st.
  induction fuel as [|fuel IH]; intros m st Hmk Hkf Hfree Hbusy; [lia|].
  cbn [next_available_loop]. cbv [bind path_exists].
  destruct (Nat.eq_dec m k) as [->|Hne].
  - rewrite Hfree. unfold ret. eauto.
  - rewrite (Hbusy m) by lia. unfold log. cbv beta iota.
    assert (Hc : b ++ "-" ++ py_str_nat (S m) ++ e = candidate_name p (S m))
      by (unfold candidate_name; rewrite Hs; reflexivity).
    rewrite Hc. apply IH; simpl; [lia|lia|exact Hfree|].
    intros j Hj. apply Hbusy. lia.
Qed.

Lemma candidate_name_0 (p : string) : candidate_name p 0 = p.
Proof. unfold candidate_name. destruct (splitext p). reflexivity. Qed.

Lemma output_filename_from_title (sane_filename : string -> string -> string)
      (self : Downloader) (clip_title : string) (io : IOContext) :
  opt_str_truthy (outputfilename io) = false ->
  output_filename sane_filename self clip_title io
  = outputfile_from_clip_title sane_filename self clip_title io
      (resume io && cap_mem RESUME (io_capabilities self)).
Proof.
  intros H. unfold output_filename.
  destruct (kind self); unfold construct_output_filename; rewrite H; reflexivity.
Qed.

(** C3: with no explicit output name and a fresh instance, the name is
    derived from the clip title ([proposed]); unless this is a resume on a
    backend with the RESUME capability, the result is the first name not on
    disk among [proposed], [basename-1+ext], [basename-2+ext], ...
    ([candidate_name]); on such a resume it is [proposed] itself. *)
Theorem output_name_collision_avoidance
        (sane_filename : string -> string -> string) (self : Downloader)
        (clip_title : string) (io : IOContext) (os : Os) (st : St)
        (Hnoname : opt_str_truthy (outputfilename io) = false)
        (Hfresh : opt_str_truthy (st_cached_output_file st) = false) :
  let filename := sane_filename clip_title (excludechars io) ++ str_or (ext self) ".flv" in
  let proposed := if opt_str_truthy (destdir io)
                  then path_join (str_or (destdir io) "") filename else filename in
  (resume io && cap_mem RESUME (io_capabilities self) = false ->
   exists k st',
     output_filename sane_filename self clip_title io os st
     = (Ok (candidate_name proposed k), st')
     /\ path_exists_in (st_fs st) (candidate_name proposed k) = false
     /\ forall j, j < k -> path_exists_in (st_fs st) (candidate_name proposed j) = true)
  /\ (resume io && cap_mem RESUME (io_capabilities self) = true ->
      exists st', output_filename sane_filename self clip_title io os st
                  = (Ok proposed, st')).
Proof.
  intros filename proposed.
  rewrite output_filename_from_title by exact Hnoname.
  unfold outputfile_from_clip_title. cbv [bind get]. rewrite Hfresh.
  fold filename. fold proposed. split.
  - intros Hr. rewrite Hr.
    destruct (candidate_free_exists (st_fs st) proposed) as (k0 & Hk0 & Hfree0).
    destruct (least_index (fun j => negb (path_exists_in (st_fs st) (candidate_name proposed j))) k0)
      as (k & Hk & Hfree & Hbusy); [rewrite Hfree0; reflexivity|].
    apply negb_true_iff in Hfree.
    unfold next_available_filename. cbv [bind get].
    destruct (splitext proposed) as [b e] eqn:Hs.
    destruct (next_available_loop_first (S (length (st_fs st))) proposed b e 0 k os st Hs)
      as (st' & Hrun); [lia|lia|exact Hfree| |].
    { intros j Hj. specialize (Hbusy j ltac:(lia)). apply negb_false_iff in Hbusy. exact Hbusy. }
    rewrite candidate_name_0 in Hrun. rewrite Hrun.
    unfold set_cache, ret. exists k. eexists. split; [reflexivity|]. split; [exact Hfree|].
    intros j Hj. specialize (Hbusy j Hj). apply negb_false_iff in Hbusy. exact Hbusy.
  - intros Hr. rewrite Hr. unfold set_cache, ret. eexists. reflexivity.
Qed.

(** * Counterexamples and witnesses *)

(** C1 as stated fails without [io.resume]: the explicit output file
    [out.flv] exists, no fragment file is around, and [save_stream] still
    starts the external tool. *)
Lemma hds_save_stream_without_resume_runs_tool :
  fst (output_filename ex_sane (new_HDSBackend "http://m/manifest.f4m" None "f1" (Some ".flv"))
         "t" (ex_io (Some "out.flv") false) (ex_os (fun _ => 0%Z) false false)
         (ex_st [("out.flv", RegularFile 4096)] ["notes.txt"])) = Ok "out.flv"
  /\ fs_lookup [("out.flv", RegularFile 4096)] "out.flv" = Some (RegularFile 4096)
  /\ existsb (fragment_name_match "f1") ["notes.txt"] = false
  /\ invokes_tool
       (snd (save_stream ex_sane [] (new_HDSBackend "http://m/manifest.f4m" None "f1" (Some ".flv"))
               "t" (ex_io (Some "out.flv") false) (ex_os (fun _ => 0%Z) false false)
               (ex_st [("out.flv", RegularFile 4096)] ["notes.txt"]))) = true.
Proof. vm_compute. repeat split. Qed.

(** C2 as stated fails: both commands start, no interrupt, the second exits
    with status 1, and [execute] returns [RD_SUCCESS] because the head
    exited with 0. *)
Lemma execute_second_fails_head_succeeds :
  os_exit_code (ex_os (fun i => if Nat.eqb i 0 then 0%Z else 1%Z) false false) 1 = 1%Z
  /\ fst (Subprocess.execute [] [["rtmpdump"; "-o"; "-"]; ["ffmpeg"; "-i"; "pipe:0"]] None
           (ex_os (fun i => if Nat.eqb i 0 then 0%Z else 1%Z) false false)
           (ex_st [] [])) = Ok RD_SUCCESS.
Proof. vm_compute. split; reflexivity. Qed.

Lemma hls_output_filename_explicit_witness :
  let self := new_HLSBackend "http://m/index.m3u8" None false in
  let io := ex_io (Some "clip") false in
  (str_contains_char "." "clip" = true ->
   output_filename ex_sane self "t" io (ex_os (fun _ => 0%Z) false false) (ex_st [] [])
   = (Ok "clip", ex_st [] []))
  /\ (str_contains_char "." "clip" = false -> opt_str_truthy (ext self) = false ->
      output_filename ex_sane self "t" io (ex_os (fun _ => 0%Z) false false) (ex_st [] [])
      = (Ok ("clip" ++ ".flv"), ex_st [] []))
  /\ (forall e, str_contains_char "." "clip" = false -> ext self = Some e -> e <> "" ->
      output_filename ex_sane self "t" io (ex_os (fun _ => 0%Z) false false) (ex_st [] [])
      = (Ok ("clip" ++ e), ex_st [] [])).
Proof.
  intros self io.
  apply (hls_output_filename_explicit ex_sane self "http://m/index.m3u8" false "t" io
           (ex_os (fun _ => 0%Z) false false) (ex_st [] []) "clip").
  - left. reflexivity.
  - reflexivity.
  - discriminate.
Defined.

Lemma outputfile_from_clip_title_idempotent_witness :
  outputfile_from_clip_title ex_sane (new_RTMPBackend []) "other" (ex_io None true) true
    (ex_os (fun _ => 0%Z) false false)
    (mkSt [("t.flv", RegularFile 10); ("t-1.flv", RegularFile 10)] [] [] [] (Some "t.flv"))
  = (Ok "t.flv",
     mkSt [("t.flv", RegularFile 10); ("t-1.flv", RegularFile 10)] [] [] [] (Some "t.flv")).
Proof.
  apply (outputfile_from_clip_title_idempotent ex_sane (new_RTMPBackend []) "t" "other"
           (ex_io None false) (ex_io None true) false true
           (ex_os (fun _ => 0%Z) false false) (ex_os (fun _ => 0%Z) false false)
           (ex_st [] [])
           (snd (outputfile_from_clip_title ex_sane (new_RTMPBackend []) "t"
                   (ex_io None false) false (ex_os (fun _ => 0%Z) false false) (ex_st [] []))));
    vm_compute; reflexivity.
Defined.

Lemma execute_launch_failure_witness :
  exists st', Subprocess.execute [] ex_cmds None ex_os_launch_fail (ex_st [] [])
              = (Ok RD_SUBPROCESS_EXECUTE_FAILED, st')
              /\ st_log st' = app []
                   [(DEBUG, "Executing:"); (DEBUG, shell_command_string ex_cmds);
                    (ERROR, "Failed to execute " ++ shell_command_string ex_cmds);
                    (ERROR, "No such file or directory")].
Proof.
  apply (execute_launch_failure [] ex_cmds None ex_os_launch_fail (ex_st [] []) 1
           ["ffmpeg"; "-i"; "pipe:0"; "out.mkv"] "No such file or directory").
  - reflexivity.
  - reflexivity.
  - intros j' a Hlt _. destruct j' as [|j']; [reflexivity|lia].
Defined.

Lemma execute_interrupt_incomplete_witness :
  exists evs st',
    Subprocess.execute [] ex_cmds None (ex_os (fun _ => 0%Z) true true) (ex_st [] [])
    = (Ok RD_INCOMPLETE, st')
    /\ st_events st' = app []
         (evs ++ [EvWait (os_pid (ex_os (fun _ => 0%Z) true true) 0)]
          ++ match os_kill_error (ex_os (fun _ => 0%Z) true true) with
             | None => [EvKill (os_pid (ex_os (fun _ => 0%Z) true true) 0) SIGINT;
                        EvWait (os_pid (ex_os (fun _ => 0%Z) true true) 0)]
             | Some _ => []
             end)%list.
Proof.
  apply (execute_interrupt_incomplete [] ex_cmds None (ex_os (fun _ => 0%Z) true true)
           (ex_st [] [])).
  - discriminate.
  - intros j args _. reflexivity.
  - reflexivity.
  - reflexivity.
Defined.

Lemma execute_result_of_head_witness :
  fst (Subprocess.execute [] ex_cmds None
         (ex_os (fun i => if Nat.eqb i 0 then 1%Z else 0%Z) false false) (ex_st [] []))
  = Ok (if Z.eqb (os_exit_code (ex_os (fun i => if Nat.eqb i 0 then 1%Z else 0%Z) false false) 0) 0
        then RD_SUCCESS else RD_FAILED).
Proof.
  apply (execute_result_of_head [] ex_cmds None
           (ex_os (fun i => if Nat.eqb i 0 then 1%Z else 0%Z) false false) (ex_st [] [])).
  - discriminate.
  - intros j args _. reflexivity.
  - reflexivity.
Defined.

Lemma hds_save_stream_skips_finished_witness :
  save_stream ex_sane [] ex_hds "t" (ex_io None true) (ex_os (fun _ => 0%Z) false false)
    (ex_st [("t.flv", RegularFile 5000)] ["notes.txt"])
  = (Ok RD_SUCCESS,
     with_log (with_events
                 (snd (output_filename ex_sane ex_hds "t" (ex_io None true)
                         (ex_os (fun _ => 0%Z) false false)
                         (ex_st [("t.flv", RegularFile 5000)] ["notes.txt"])))
                 [EvListdir "."])
              [(INFO, "t.flv" ++ " has already been downloaded.")]).
Proof.
  apply (hds_save_stream_skips_finished ex_sane [] ex_hds "http://m/manifest.f4m" None "f1"
           "t" (ex_io None true) (ex_os (fun _ => 0%Z) false false)
           (ex_st [("t.flv", RegularFile 5000)] ["notes.txt"])
           (snd (output_filename ex_sane ex_hds "t" (ex_io None true)
                   (ex_os (fun _ => 0%Z) false false)
                   (ex_st [("t.flv", RegularFile 5000)] ["notes.txt"])))
           "t.flv" 5000%Z).
  - reflexivity.
  - vm_compute. reflexivity.
  - reflexivity.
  - discriminate.
  - vm_compute. reflexivity.
  - vm_compute. reflexivity.
Defined.

Lemma rtmp_save_stream_small_file_witness :
  let st := ex_st [("t.flv", RegularFile 100)] [] in
  let os := ex_os (fun _ => 0%Z) false false in
  let io := ex_io None true in
  let st1 := snd (output_filename ex_sane ex_rtmp "t" io os st) in
  (forall size,
      fs_lookup (st_fs st1) "t.flv" = Some (RegularFile size) -> (size < 1024)%Z ->
      os_getsize_error os "t.flv" = None -> os_remove_error os "t.flv" = None ->
      save_stream ex_sane [] ex_rtmp "t" io os st
      = external_save_stream ex_sane [] ex_rtmp "t" io os
          (mkSt (filter (fun e => negb (String.eqb (fst e) "t.flv")) (st_fs st1))
                (st_cwd st1) (st_log st1) (app (st_events st1) [EvRemove "t.flv"])
                (st_cached_output_file st1)))
  /\ (fs_lookup (st_fs st1) "t.flv" = None \/ os_getsize_error os "t.flv" <> None
      \/ os_remove_error os "t.flv" <> None ->
      exists evs,
        save_stream ex_sane [] ex_rtmp "t" io os st
        = external_save_stream ex_sane [] ex_rtmp "t" io os (with_events st1 evs)).
Proof.
  intros st os io st1.
  apply (rtmp_save_stream_small_file ex_sane [] ex_rtmp ["-r"; "rtmp://h/a"] "t" io os st st1
           "t.flv").
  - reflexivity.
  - reflexivity.
  - vm_compute. reflexivity.
Defined.

Lemma output_name_collision_avoidance_witness :
  let st := ex_st [("t.flv", RegularFile 10); ("t-1.flv", RegularFile 10)] [] in
  let os := ex_os (fun _ => 0%Z) false false in
  let io := ex_io None false in
  let self := new_RTMPBackend [] in
  let filename := ex_sane "t" (excludechars io) ++ str_or (ext self) ".flv" in
  let proposed := if opt_str_truthy (destdir io)
                  then path_join (str_or (destdir io) "") filename else filename in
  (resume io && cap_mem RESUME (io_capabilities self) = false ->
   exists k st',
     output_filename ex_sane self "t" io os st
     = (Ok (candidate_name proposed k), st')
     /\ path_exists_in (st_fs st) (candidate_name proposed k) = false
     /\ forall j, j < k -> path_exists_in (st_fs st) (candidate_name proposed j) = true)
  /\ (resume io && cap_mem RESUME (io_capabilities self) = true ->
      exists st', output_filename ex_sane self "t" io os st
                  = (Ok proposed, st')).
Proof.
  intros st os io self.
  apply (output_name_collision_avoidance ex_sane self "t" io os st).
  - reflexivity.
  - reflexivity.
Defined.

(** * Further properties of the module *)

(** ** The registry *)

Lemma with_log_app (st : St) (a b : list (level * string)) :
  with_log (with_log st a) b = with_log st (a ++ b).
Proof. unfold with_log. simpl. rewrite app_assoc. reflexivity. Qed.

Lemma with_log_nil (st : St) : with_log st [] = st.
Proof. destruct st. unfold with_log. simpl. rewrite app_nil_r. reflexivity. Qed.

Lemma parse_loop_log (xs acc : list string) (os : Os) (st : St) :
  snd (Backends.parse_loop xs acc os st)
  = with_log st (map (fun bn => (WARNING, "Invalid backend: " ++ bn))
                     (filter (fun bn => negb (Backends.is_valid_backend bn)) xs)).
Proof.
  revert acc st. induction xs as [|x xs IH]; intros acc st; simpl.
  - rewrite with_log_nil. reflexivity.
  - destruct (Backends.is_valid_backend x); simpl.
    + destruct (Backends.str_mem x acc); simpl; apply IH.
    + unfold bind, log. rewrite IH. unfold with_log. simpl.
      rewrite <- app_assoc. reflexivity.
Qed.

(** [Backends.parse_backends] logs one warning "Invalid backend: <name>"
    per unknown entry of its input, in input order (duplicates included),
    and changes nothing else: no file, process or cache is touched. *)
Theorem parse_backends_warns_each_invalid (xs : list string) (os : Os) (st : St) :
  snd (Backends.parse_backends xs os st)
  = with_log st (map (fun bn => (WARNING, "Invalid backend: " ++ bn))
                     (filter (fun bn => negb (Backends.is_valid_backend bn)) xs)).
Proof. apply parse_loop_log. Qed.

(** [Backends.parse_backends] returns a list without duplicates whose
    entries all come from [Backends.default_order], hence at most five
    backends whatever its input. *)
Theorem parse_backends_bounded (xs : list string) (os : Os) (st : St) :
  exists r, fst (Backends.parse_backends xs os st) = Ok r
            /\ NoDup r /\ incl r Backends.default_order /\ length r <= 5.
Proof.
  exists (spec_parse_backends xs). split; [apply parse_backends_spec|].
  assert (Hincl : incl (spec_parse_backends xs) Backends.default_order).
  { intros x Hx. unfold spec_parse_backends in Hx.
    apply in_dedup_keep_first, filter_In in Hx. destruct Hx as [_ Hv].
    unfold Backends.is_valid_backend, Backends.str_mem in Hv.
    apply existsb_exists in Hv. destruct Hv as (y & Hy & Heq).
    apply String.eqb_eq in Heq. subst y. exact Hy. }
  split; [apply dedup_keep_first_NoDup|split; [exact Hincl|]].
  apply (NoDup_incl_length (dedup_keep_first_NoDup _) Hincl).
Qed.

(** ** Environments of the child processes *)

Lemma env_lookup_nil (k : string) : env_lookup [] k = None.
Proof. reflexivity. Qed.

Lemma env_lookup_cons (k0 v0 : string) (d : Subprocess.env) (k : string) :
  env_lookup ((k0, v0) :: d) k = if String.eqb k0 k then Some v0 else env_lookup d k.
Proof. unfold env_lookup. simpl. destruct (String.eqb k0 k); reflexivity. Qed.

Lemma env_lookup_app (d1 d2 : Subprocess.env) (k : string) :
  env_lookup (d1 ++ d2)%list k
  = match env_lookup d1 k with Some v => Some v | None => env_lookup d2 k end.
Proof.
  induction d1 as [|[k0 v0] d1 IH]; simpl; [reflexivity|].
  rewrite !env_lookup_cons. destruct (String.eqb k0 k); [reflexivity|exact IH].
Qed.

Lemma dict_set_lookup (d : Subprocess.env) (k v k' : string) :
  env_lookup (Subprocess.dict_set d k v) k'
  = if String.eqb k k' then Some v else env_lookup d k'.
Proof.
  induction d as [|[k0 v0] d IH]; simpl.
  - rewrite env_lookup_cons. reflexivity.
  - destruct (String.eqb k k0) eqn:Hk0.
    + apply String.eqb_eq in Hk0. subst k0.
      rewrite !env_lookup_cons. destruct (String.eqb k k'); reflexivity.
    + rewrite !env_lookup_cons, IH.
      destruct (String.eqb k0 k') eqn:H0, (String.eqb k k') eqn:H1; try reflexivity.
      apply String.eqb_eq in H0, H1. subst. rewrite String.eqb_refl in Hk0. discriminate.
Qed.

Lemma fold_dict_set_lookup (extra d : Subprocess.env) (k : string) :
  env_lookup (fold_left (fun d kv => Subprocess.dict_set d (fst kv) (snd kv)) extra d) k
  = match env_lookup (rev extra) k with Some v => Some v | None => env_lookup d k end.
Proof.
  revert d. induction extra as [|[k0 v0] extra IH]; intros d; simpl; [reflexivity|].
  rewrite IH, env_lookup_app, env_lookup_cons, env_lookup_nil, dict_set_lookup.
  destruct (env_lookup (rev extra) k); [reflexivity|].
  destruct (String.eqb k0 k); reflexivity.
Qed.

(** [Subprocess.combine_envs]: with no extra variables ([None] or an empty
    dict) the result is [None], so the children inherit the environment;
    otherwise every variable of the result has the value of the extra
    variables where they bind it (the last binding, as [dict.update] keeps)
    and the value of [os.environ] elsewhere. *)
Theorem combine_envs_lookup (environ : Subprocess.env) (kv : string * string)
        (extra : Subprocess.env) :
  Subprocess.combine_envs environ None = None
  /\ Subprocess.combine_envs environ (Some []) = None
  /\ exists e, Subprocess.combine_envs environ (Some (kv :: extra)) = Some e
               /\ forall k, env_lookup e k
                            = match env_lookup (rev (kv :: extra)) k with
                              | Some v => Some v
                              | None => env_lookup environ k
                              end.
Proof.
  split; [reflexivity|split; [reflexivity|]].
  exists (fold_left (fun d kv => Subprocess.dict_set d (fst kv) (snd kv)) (kv :: extra) environ).
  split; [reflexivity|]. intros k. exact (fold_dict_set_lookup (kv :: extra) environ k).
Qed.

Lemma dict_set_keys_in (d : Subprocess.env) (k v x : string) :
  In x (map fst (Subprocess.dict_set d k v)) -> x = k \/ In x (map fst d).
Proof.
  induction d as [|[k0 v0] d IH]; simpl.
  - intros [H|[]]. left. symmetry. exact H.
  - destruct (String.eqb k k0) eqn:Hk; simpl.
    + apply String.eqb_eq in Hk. subst. tauto.
    + intros [H|H]; [tauto|]. destruct (IH H); tauto.
Qed.

Lemma dict_set_keys_NoDup (d : Subprocess.env) (k v : string) :
  NoDup (map fst d) -> NoDup (map fst (Subprocess.dict_set d k v)).
Proof.
  induction d as [|[k0 v0] d IH]; simpl; intros Hnd.
  - constructor; [simpl; tauto|constructor].
  - inversion Hnd as [|? ? Hnin Hnd']; subst.
    destruct (String.eqb k k0) eqn:Hk; simpl.
    + apply String.eqb_eq in Hk. subst. constructor; assumption.
    + constructor; [|apply IH; exact Hnd'].
      intros Hin. apply dict_set_keys_in in Hin. destruct Hin as [->|Hin].
      * rewrite String.eqb_refl in Hk. discriminate.
      * exact (Hnin Hin).
Qed.

Lemma fold_dict_set_NoDup (l d : Subprocess.env) :
  NoDup (map fst d) ->
  NoDup (map fst (fold_left (fun d kv => Subprocess.dict_set d (fst kv) (snd kv)) l d)).
Proof.
  revert d. induction l as [|x xs IH]; intros d Hd; simpl; [exact Hd|].
  apply IH. apply dict_set_keys_NoDup. exact Hd.
Qed.

(** [Subprocess.combine_envs] keeps the variables distinct: when
    [os.environ] binds each variable once, so does the combined
    environment. *)
Theorem combine_envs_keys_distinct (environ extra : Subprocess.env) (e : Subprocess.env)
        (Henv : NoDup (map fst environ))
        (He : Subprocess.combine_envs environ (Some extra) = Some e) :
  NoDup (map fst e).
Proof.
  unfold Subprocess.combine_envs in He. destruct extra as [|kv extra]; [discriminate|].
  injection He as <-. exact (fold_dict_set_NoDup (kv :: extra) environ Henv).
Qed.

Lemma combine_envs_keys_distinct_witness :
  NoDup (map fst [("PATH", "/bin"); ("HOME", "/root"); ("https_proxy", "http://p:8080")]).
Proof.
  apply (combine_envs_keys_distinct [("PATH", "/bin"); ("HOME", "/root")]
           [("https_proxy", "http://q:3128"); ("https_proxy", "http://p:8080")]).
  - repeat constructor; simpl; intuition discriminate.
  - reflexivity.
Defined.

(** ** Starting and waiting on a chain of processes *)

Lemma popen_all_trace (commands : list (list string)) (i n : nat)
      (env : option Subprocess.env) (os : Os) (st : St) :
  (forall j args, nth_error commands j = Some args -> os_popen_error os (i + j) args = None) ->
  Subprocess.popen_all commands i n env os st
  = (Ok tt, with_events st
              (map (fun p => EvPopen (fst p) (snd p) (negb (Nat.eqb (fst p) 0))
                                     (negb (Nat.eqb (fst p) (n - 1))) env
                                     (Nat.eqb (fst p) 0 && negb (os_windows os)))
                   (combine (seq i (length commands)) commands))).
Proof.
  revert i st. induction commands as [|args rest IH]; intros i st Hok; simpl.
  - rewrite with_events_nil. reflexivity.
  - unfold bind, ask.
    assert (Hi : os_popen_error os i args = None)
      by (rewrite <- (Nat.add_0_r i); apply (Hok 0); reflexivity).
    rewrite Hi. unfold emit. rewrite IH.
    + unfold with_events. simpl. rewrite <- app_assoc. reflexivity.
    + intros j a Hj. replace (S i + j) with (i + S j) by lia.
      apply (Hok (S j)). exact Hj.
Qed.

Lemma close_stdouts_trace (k : nat) (os : Os) (st : St) :
  Subprocess.close_stdouts k os st = (Ok tt, with_events st (map EvCloseStdout (seq 0 k))).
Proof.
  revert st. induction k as [|k IH]; intros st.
  - simpl. rewrite with_events_nil. reflexivity.
  - cbn [Subprocess.close_stdouts]. unfold bind. rewrite IH.
    rewrite seq_S, map_app, <- with_events_app. reflexivity.
Qed.

Lemma start_process_trace (commands : list (list string)) (env : option Subprocess.env)
      (os : Os) (st : St) :
  commands <> [] ->
  (forall j args, nth_error commands j = Some args -> os_popen_error os j args = None) ->
  Subprocess.start_process commands env os st
  = (Ok (os_pid os 0), with_events st (pipeline_events (os_windows os) commands env)).
Proof.
  intros Hne Hok. unfold Subprocess.start_process.
  destruct commands as [|c cs]; [congruence|].
  unfold bind at 1.
  rewrite (popen_all_trace (c :: cs) 0 (length (c :: cs)) env os st Hok).
  unfold bind. rewrite close_stdouts_trace. unfold ask, ret, pipeline_events.
  rewrite <- with_events_app. reflexivity.
Qed.

(** [Subprocess.start_process] wires the chain as a pipeline: when every
    command starts, it starts them in order, process [i] reading the output
    of process [i-1] (the head reading the caller's input), every process
    but the last writing into a pipe, only the head asking for SIGTERM when
    its parent dies (and not on Windows), all with the same environment;
    it then closes the parent's copy of every pipe and returns the pid of
    the head. *)
Theorem start_process_pipeline (commands : list (list string))
        (env : option Subprocess.env) (os : Os) (st : St)
        (Hne : commands <> [])
        (Hok : forall j args, nth_error commands j = Some args ->
                              os_popen_error os j args = None) :
  Subprocess.start_process commands env os st
  = (Ok (os_pid os 0), with_events st (pipeline_events (os_windows os) commands env)).
Proof. apply start_process_trace; assumption. Qed.

Lemma start_process_pipeline_witness :
  Subprocess.start_process ex_cmds None (ex_os (fun _ => 0%Z) false false) (ex_st [] [])
  = (Ok 100%Z,
     with_events (ex_st [] [])
       [EvPopen 0 ["rtmpdump"; "-r"; "rtmp://h/a"; "-o"; "-"] false true None true;
        EvPopen 1 ["ffmpeg"; "-i"; "pipe:0"; "out.mkv"] true false None false;
        EvCloseStdout 0]).
Proof.
  apply (start_process_pipeline ex_cmds None (ex_os (fun _ => 0%Z) false false) (ex_st [] [])).
  - discriminate.
  - intros j args _. reflexivity.
Defined.

(** [Subprocess.execute] on a chain whose commands all start, without an
    interrupt: it logs the "Executing:" line and the shell form of the
    chain at debug level and nothing else, starts the pipeline with the
    environment [combine_envs] builds, waits on the head once, and maps the
    head's exit code through [exit_code_to_rd]; no file and no cache are
    touched. *)
Theorem execute_success_trace (environ : Subprocess.env)
        (commands : list (list string)) (extra : option Subprocess.env)
        (os : Os) (st : St)
        (Hne : commands <> [])
        (Hok : forall j args, nth_error commands j = Some args ->
                              os_popen_error os j args = None)
        (Hint : os_interrupt_wait os = false) :
  Subprocess.execute environ commands extra os st
  = (Ok (Subprocess.exit_code_to_rd (os_exit_code os 0)),
     mkSt (st_fs st) (st_cwd st)
          (st_log st ++ [(DEBUG, "Executing:"); (DEBUG, shell_command_string commands)])%list
          (st_events st
           ++ pipeline_events (os_windows os) commands (Subprocess.combine_envs environ extra)
           ++ [EvWait (os_pid os 0)])%list
          (st_cached_output_file st)).
Proof.
  unfold Subprocess.execute.
  destruct commands as [|c cs]; [congruence|].
  unfold bind at 1, log at 1. cbv beta iota.
  unfold bind at 1, log at 1. cbv beta iota.
  rewrite catch_bind.
  rewrite start_process_trace by assumption.
  cbv [fst snd bind ret raise emit ask Subprocess.catch Subprocess.wait_process].
  rewrite Hint. unfold with_events, pipeline_events.
  cbn [st_fs st_cwd st_log st_events st_cached_output_file].
  rewrite <- !app_assoc. reflexivity.
Qed.

Lemma execute_success_trace_witness :
  Subprocess.execute [("PATH", "/bin")] ex_cmds (Some [("LANG", "C")])
    (ex_os (fun _ => 0%Z) false false) (ex_st [] [])
  = (Ok (Subprocess.exit_code_to_rd 0),
     mkSt [] []
          ([] ++ [(DEBUG, "Executing:"); (DEBUG, shell_command_string ex_cmds)])%list
          ([] ++ pipeline_events false ex_cmds (Some [("PATH", "/bin"); ("LANG", "C")])
              ++ [EvWait 100%Z])%list
          None).
Proof.
  apply (execute_success_trace [("PATH", "/bin")] ex_cmds (Some [("LANG", "C")])
           (ex_os (fun _ => 0%Z) false false) (ex_st [] [])).
  - discriminate.
  - intros j args _. reflexivity.
  - reflexivity.
Defined.

(** A second Ctrl-C, arriving while [Subprocess.execute] waits on the head
    after forwarding SIGINT to it, is not caught: [execute] raises
    [KeyboardInterrupt] to its caller (only [OSError] is swallowed in the
    handler). *)
Theorem execute_second_interrupt_escapes (environ : Subprocess.env)
        (commands : list (list string)) (extra : option Subprocess.env)
        (os : Os) (st : St)
        (Hne : commands <> [])
        (Hok : forall j args, nth_error commands j = Some args ->
                              os_popen_error os j args = None)
        (Hint : os_interrupt_wait os = true)
        (Hkill : os_kill_error os = None)
        (Hre : os_interrupt_rewait os = true) :
  fst (Subprocess.execute environ commands extra os st) = Raise KeyboardInterrupt.
Proof.
  unfold Subprocess.execute.
  destruct commands as [|c cs]; [congruence|].
  unfold bind at 1, log at 1. cbv beta iota.
  unfold bind at 1, log at 1. cbv beta iota.
  rewrite catch_bind.
  rewrite start_process_trace by assumption.
  cbv [fst snd bind ret raise emit ask try_except Subprocess.catch Subprocess.wait_process
       Subprocess.kill].
  rewrite Hint, Hkill, Hre. reflexivity.
Qed.

Lemma execute_second_interrupt_escapes_witness :
  fst (Subprocess.execute [] ex_cmds None
         (mkOs false false (fun _ _ => None) (fun i => Z.of_nat (100 + i)) (fun _ => 0%Z)
               true None true (fun _ => None) (fun _ => None))
         (ex_st [] []))
  = Raise KeyboardInterrupt.
Proof.
  apply (execute_second_interrupt_escapes [] ex_cmds None
           (mkOs false false (fun _ _ => None) (fun i => Z.of_nat (100 + i)) (fun _ => 0%Z)
                 true None true (fun _ => None) (fun _ => None))
           (ex_st [] [])).
  - discriminate.
  - intros j args _. reflexivity.
  - reflexivity.
  - reflexivity.
  - reflexivity.
Defined.

(** ** Output names *)

Lemma str_contains_char_app (c : ascii) (a b : string) :
  str_contains_char c (a ++ b) = str_contains_char c a || str_contains_char c b.
Proof.
  induction a as [|x a IH]; simpl; [reflexivity|]. rewrite IH. apply orb_assoc.
Qed.

(** [append_ext_if_missing(filename, default_ext)] gives a name containing
    a '.', and a second application leaves it unchanged, as long as the
    extension it appends ([default_ext], or ".flv" when that is empty)
    contains a '.'. *)
Theorem append_ext_if_missing_idempotent (filename : string) (default_ext : option string)
        (Hdot : str_contains_char "." (str_or default_ext ".flv") = true) :
  str_contains_char "." (append_ext_if_missing filename default_ext) = true
  /\ append_ext_if_missing (append_ext_if_missing filename default_ext) default_ext
     = append_ext_if_missing filename default_ext.
Proof.
  unfold append_ext_if_missing.
  destruct (str_contains_char "." filename) eqn:Hf.
  - rewrite Hf. split; reflexivity.
  - assert (Hc : str_contains_char "." (filename ++ str_or default_ext ".flv") = true)
      by (rewrite str_contains_char_app, Hdot, orb_true_r; reflexivity).
    rewrite Hc. split; reflexivity.
Qed.

Lemma append_ext_if_missing_idempotent_witness :
  str_contains_char "." (append_ext_if_missing "clip" (Some ".mp4")) = true
  /\ append_ext_if_missing (append_ext_if_missing "clip" (Some ".mp4")) (Some ".mp4")
     = append_ext_if_missing "clip" (Some ".mp4").
Proof. apply (append_ext_if_missing_idempotent "clip" (Some ".mp4")). reflexivity. Defined.

(** [replace_extension(filename, ext)] with an extension [ext] returns the
    name without its old extension followed by [ext] (so the name itself
    when it already ends in [ext]), and logs the warning "Unsupported
    extension ..." exactly when the old extension is not empty and differs
    from [ext]; it changes nothing else. *)
Theorem replace_extension_result (filename e : string) (os : Os) (st : St) :
  replace_extension filename (Some e) os st
  = (Ok (fst (splitext filename) ++ e),
     if str_truthy (snd (splitext filename)) && negb (String.eqb (snd (splitext filename)) e)
     then with_log st [(WARNING, "Unsupported extension " ++ snd (splitext filename)
                                 ++ ". Replacing it with " ++ e)]
     else st).
Proof.
  pose proof (splitext_app filename) as Happ.
  unfold replace_extension.
  destruct (splitext filename) as (b, o). simpl in Happ |- *.
  destruct (String.eqb o e) eqn:Heq.
  - apply String.eqb_eq in Heq. subst o.
    destruct (str_truthy e); simpl; cbv [bind ret]; rewrite ?Happ; reflexivity.
  - rewrite orb_true_r. destruct (str_truthy o); simpl; reflexivity.
Qed.

(** A backend that forces its extension ([output_filename] through
    [replace_extension]) but was created with no extension raises
    [TypeError] on any explicit output file name: [basename + None]. *)
Theorem output_filename_no_extension_raises (sane_filename : string -> string -> string)
        (url : string) (bitrate : option Z) (flavor_id : string) (clip_title : string)
        (io : IOContext) (os : Os) (st : St) (f : string)
        (Hout : outputfilename io = Some f) (Hne : f <> "") :
  fst (output_filename sane_filename (new_HDSBackend url bitrate flavor_id None)
         clip_title io os st) = Raise TypeError.
Proof.
  unfold output_filename. simpl kind. cbv iota.
  unfold construct_output_filename. rewrite Hout.
  assert (Hf : str_truthy f = true)
    by (unfold str_truthy; apply negb_true_iff, String.eqb_neq; exact Hne).
  cbv [opt_str_truthy str_or]. rewrite Hf.
  unfold replace_extension. destruct (splitext f) as (b, o).
  rewrite orb_true_r. destruct (str_truthy o); reflexivity.
Qed.

Lemma output_filename_no_extension_raises_witness :
  fst (output_filename ex_sane (new_HDSBackend "http://m/manifest.f4m" None "f1" None)
         "t" (ex_io (Some "out.mp4") false) (ex_os (fun _ => 0%Z) false false)
         (ex_st [] [])) = Raise TypeError.
Proof.
  apply (output_filename_no_extension_raises ex_sane "http://m/manifest.f4m" None "f1" "t"
           (ex_io (Some "out.mp4") false) (ex_os (fun _ => 0%Z) false false) (ex_st [] [])
           "out.mp4").
  - reflexivity.
  - discriminate.
Defined.

Lemma replace_extension_fst (filename : string) (e : option string) (os : Os) (st st' : St) :
  fst (replace_extension filename e os st) = fst (replace_extension filename e os st').
Proof.
  unfold replace_extension. destruct (splitext filename) as (b, o).
  destruct (negb (str_truthy o) || _); [|reflexivity].
  destruct (str_truthy o), e; reflexivity.
Qed.

(** Asking a backend for its output file name a second time, on the state
    the first call left, gives the same name: an explicit name is worked
    out again the same way, a name derived from the clip title comes back
    from the instance's cache. *)
Theorem output_filename_stable (sane_filename : string -> string -> string)
        (self : Downloader) (clip_title : string) (io : IOContext) (os : Os)
        (st st1 : St) (name : string)
        (Hfirst : output_filename sane_filename self clip_title io os st = (Ok name, st1)) :
  fst (output_filename sane_filename self clip_title io os st1) = Ok name.
Proof.
  assert (Hgen : forall force,
             construct_output_filename sane_filename self clip_title io force os st
             = (Ok name, st1) ->
             fst (construct_output_filename sane_filename self clip_title io force os st1)
             = Ok name).
  { intros force Hc. unfold construct_output_filename in *.
    destruct (opt_str_truthy (outputfilename io)).
    - destruct force.
      + rewrite (replace_extension_fst _ _ os st1 st), Hc. reflexivity.
      + unfold ret in *. injection Hc as <- <-. reflexivity.
    - destruct (outputfile_from_clip_title_caches sane_filename self clip_title io
                  (resume io && cap_mem RESUME (io_capabilities self)) os st)
        as (p & st' & Hrun & Ht & Hcache).
      rewrite Hrun in Hc. injection Hc as <- <-.
      unfold outputfile_from_clip_title, bind, get. rewrite Hcache.
      cbv [opt_str_truthy ret str_or fst]. rewrite Ht. reflexivity. }
  unfold output_filename in *. destruct (kind self); apply Hgen; exact Hfirst.
Qed.

Lemma output_filename_stable_witness :
  fst (output_filename ex_sane ex_rtmp "t" (ex_io None false)
         (ex_os (fun _ => 0%Z) false false)
         (snd (output_filename ex_sane ex_rtmp "t" (ex_io None false)
                 (ex_os (fun _ => 0%Z) false false)
                 (ex_st [("t.flv", RegularFile 4096)] []))))
  = Ok "t-1.flv".
Proof.
  apply (output_filename_stable ex_sane ex_rtmp "t" (ex_io None false)
           (ex_os (fun _ => 0%Z) false false) (ex_st [("t.flv", RegularFile 4096)] [])).
  vm_compute. reflexivity.
Defined.

(** ** Fragment files of the fragmented-HTTP backend *)

Lemma string_app_assoc (a b c : string) : (a ++ b) ++ c = a ++ (b ++ c).
Proof. induction a as [|x a IH]; simpl; [reflexivity|]. rewrite IH. reflexivity. Qed.

Lemma prefix_app (a b : string) : String.prefix a (a ++ b) = true.
Proof.
  induction a as [|x a IH]; [destruct b; reflexivity|]. simpl.
  destruct (ascii_dec x x); [exact IH|congruence].
Qed.

Lemma substring_app_skip (a b : string) (m : nat) :
  substring (String.length a) m (a ++ b) = substring 0 m b.
Proof. induction a as [|x a IH]; simpl; [reflexivity|exact IH]. Qed.

Lemma substring_0_app (a b : string) : substring 0 (String.length a) (a ++ b) = a.
Proof.
  induction a as [|x a IH]; [destruct b; reflexivity|]. simpl. rewrite IH. reflexivity.
Qed.

Lemma substring_rest_app (a b : string) :
  substring (String.length a) (String.length (a ++ b) - String.length a) (a ++ b) = b.
Proof.
  rewrite string_length_app.
  replace (String.length a + String.length b - String.length a) with (String.length b)
    by lia.
  rewrite substring_app_skip. apply substring_0_length.
Qed.

Lemma strip_prefix_app (a b : string) : strip_prefix a (a ++ b) = Some b.
Proof. unfold strip_prefix. rewrite prefix_app, substring_rest_app. reflexivity. Qed.

Lemma strip_digits_app (d r : string) :
  all_digits d = true -> strip_digits (d ++ r) = strip_digits r.
Proof.
  induction d as [|c d IH]; simpl; [reflexivity|].
  intros H. apply andb_true_iff in H. destruct H as [Hc Hd]. rewrite Hc. apply IH, Hd.
Qed.

Lemma strip_digits1_app (d r : string) :
  d <> "" -> all_digits d = true -> strip_digits1 (d ++ r) = Some (strip_digits r).
Proof.
  destruct d as [|c d]; [congruence|]. intros _ H. simpl in H |- *.
  apply andb_true_iff in H. destruct H as [Hc Hd]. rewrite Hc.
  f_equal. apply strip_digits_app, Hd.
Qed.

(** Every name made of a line-break-free prefix, then
    [_<flavor_id>_Seg<digits>-Frag<digits>], is taken by
    [HDSBackend.fragments_exist] for a leftover fragment of that flavor:
    [fragment_name_match] (the [re.match] of the pattern) accepts it. *)
Theorem fragment_name_match_fragment_file (flavor_id p d1 d2 : string)
        (Hp : str_contains_char newline p = false)
        (Hd1 : d1 <> "") (Hd1' : all_digits d1 = true)
        (Hd2 : d2 <> "") (Hd2' : all_digits d2 = true) :
  fragment_name_match flavor_id (p ++ "_" ++ flavor_id ++ "_Seg" ++ d1 ++ "-Frag" ++ d2)
  = true.
Proof.
  set (r := "_" ++ flavor_id ++ "_Seg" ++ d1 ++ "-Frag" ++ d2).
  unfold fragment_name_match. apply existsb_exists. exists (String.length p). split.
  - apply in_seq. rewrite string_length_app. lia.
  - rewrite substring_0_app, Hp, substring_rest_app. simpl negb. cbv [andb].
    unfold fragment_tail_match.
    replace r with (("_" ++ flavor_id ++ "_Seg") ++ (d1 ++ "-Frag" ++ d2))
      by (unfold r; rewrite !string_app_assoc; reflexivity).
    rewrite strip_prefix_app, strip_digits1_app by assumption.
    change (strip_digits ("-Frag" ++ d2)) with ("-Frag" ++ d2).
    rewrite strip_prefix_app.
    rewrite <- (string_app_nil_r d2), strip_digits1_app by assumption.
    reflexivity.
Qed.

Lemma fragment_name_match_fragment_file_witness :
  fragment_name_match "1_1200" ("clip" ++ "_" ++ "1_1200" ++ "_Seg" ++ "1" ++ "-Frag" ++ "42")
  = true.
Proof.
  apply (fragment_name_match_fragment_file "1_1200" "clip" "1" "42");
    (reflexivity || discriminate).
Defined.



(** ** Streaming to standard output *)

Lemma external_pipe_with_run (which : string -> option string) (environ : Subprocess.env)
      (pipe_args : M (list string)) (extra_env : M (option Subprocess.env))
      (io : IOContext) (subtitle_url : option string) (os : Os) (st st1 st2 st3 : St)
      (args : list string) (env : option Subprocess.env) (c : option (list string)) :
  pipe_args os st = (Ok args, st1) ->
  extra_env os st1 = (Ok env, st2) ->
  mux_subtitles_command which (ffmpeg_binary io) subtitle_url os st2 = (Ok c, st3) ->
  external_pipe_with which environ pipe_args extra_env io subtitle_url os st
  = Subprocess.execute environ
      (match c with Some cmd => [args; cmd] | None => [args] end) env os st3.
Proof.
  intros H1 H2 H3. unfold external_pipe_with, bind.
  rewrite H1. cbv beta iota. rewrite H2. cbv beta iota. rewrite H3. cbv beta iota.
  destruct c; reflexivity.
Qed.

Lemma mux_subtitles_none (which : string -> option string) (ffmpeg_binary' : string)
      (subtitle_url : option string) (os : Os) (st : St) :
  negb (str_truthy ffmpeg_binary') || negb (opt_str_truthy subtitle_url) = true ->
  mux_subtitles_command which ffmpeg_binary' subtitle_url os st = (Ok None, st).
Proof. intros H. unfold mux_subtitles_command. rewrite H. reflexivity. Qed.

Lemma bind_ok {A B} (m : M A) (k : A -> M B) (os : Os) (st : St) (a : A) (st1 : St) :
  m os st = (Ok a, st1) -> bind m k os st = k a os st1.
Proof. intros H. unfold bind. rewrite H. reflexivity. Qed.

Lemma str_truthy_ne (s : string) : s <> "" -> str_truthy s = true.
Proof. intros H. unfold str_truthy. apply negb_true_iff, String.eqb_neq. exact H. Qed.

Lemma mux_subtitles_found (which : string -> option string) (ffmpeg_binary' u : string)
      (os : Os) (st : St) :
  ffmpeg_binary' <> "" -> u <> "" -> opt_str_truthy (which ffmpeg_binary') = true ->
  mux_subtitles_command which ffmpeg_binary' (Some u) os st
  = (Ok (Some [ffmpeg_binary'; "-y"; "-i"; "pipe:0"; "-i"; u;
               "-c"; "copy"; "-c:s"; "srt"; "-f"; "matroska"; "pipe:1"]), st).
Proof.
  intros Hf Hu Hw. unfold mux_subtitles_command. cbv [opt_str_truthy str_or].
  rewrite (str_truthy_ne _ Hf), (str_truthy_ne _ Hu). simpl negb. cbv [orb].
  fold (opt_str_truthy (which ffmpeg_binary')). rewrite Hw. reflexivity.
Qed.

Lemma mux_subtitles_missing (which : string -> option string) (ffmpeg_binary' u : string)
      (os : Os) (st : St) :
  ffmpeg_binary' <> "" -> u <> "" -> opt_str_truthy (which ffmpeg_binary') = false ->
  mux_subtitles_command which ffmpeg_binary' (Some u) os st
  = (Ok None, with_log st [(WARNING, ffmpeg_binary' ++ " not found. Subtitles disabled.");
                          (WARNING, "Set the path to ffmpeg using --ffmpeg")]).
Proof.
  intros Hf Hu Hw. unfold mux_subtitles_command. cbv [opt_str_truthy str_or].
  rewrite (str_truthy_ne _ Hf), (str_truthy_ne _ Hu). simpl negb. cbv [orb].
  fold (opt_str_truthy (which ffmpeg_binary')). rewrite Hw.
  cbv [bind log ret with_log]. simpl. rewrite <- app_assoc. reflexivity.
Qed.

Lemma build_pipe_args_run (self : Downloader) (io : IOContext) (os : Os) (st : St) :
  exists args, build_pipe_args self io os st = (Ok args, st).
Proof.
  unfold build_pipe_args, adobehds_command_line, ffmpeg_command_line, bind, ask, ret.
  destruct (kind self); eexists; reflexivity.
Qed.

(** [HDSBackend.pipe] removes the cookie file "Cookies.txt" after the
    stream has been piped, whatever the result of the transfer: it returns
    the transfer's result unchanged, and a failed removal ([OSError], e.g.
    no such file) is swallowed. *)
Theorem hds_pipe_cleans_cookies (which : string -> option string) (environ : Subprocess.env)
        (self : Downloader) (url : string) (bitrate : option Z) (flavor_id : string)
        (io : IOContext) (subtitle_url : option string) (os : Os) (st s1 : St) (r : rd)
        (Hkind : kind self = HDSBackend url bitrate flavor_id)
        (Hrun : external_pipe which environ self io subtitle_url os st = (Ok r, s1)) :
  exists s2,
    pipe which environ self io subtitle_url os st = (Ok r, s2)
    /\ st_events s2 = (st_events s1 ++ [EvRemove "Cookies.txt"])%list
    /\ st_log s2 = st_log s1
    /\ st_fs s2 = match os_remove_error os "Cookies.txt", fs_lookup (st_fs s1) "Cookies.txt" with
                  | None, Some (RegularFile _) =>
                      filter (fun e => negb (String.eqb (fst e) "Cookies.txt")) (st_fs s1)
                  | _, _ => st_fs s1
                  end.
Proof.
  unfold pipe. rewrite Hkind. unfold bind at 1. rewrite Hrun. cbv beta iota.
  cbv [bind cleanup_cookies try_except os_remove ret raise].
  destruct (os_remove_error os "Cookies.txt");
    [|destruct (fs_lookup (st_fs s1) "Cookies.txt") as [[n|n]|]];
    eexists; (split; [reflexivity|]); simpl; auto.
Qed.

Lemma hds_pipe_cleans_cookies_witness :
  exists s2,
    pipe (fun _ => None) [] ex_hds (ex_io None false) None
      (ex_os (fun _ => 0%Z) false false) (ex_st [("Cookies.txt", RegularFile 80)] [])
    = (Ok RD_SUCCESS, s2)
    /\ st_events s2
       = (st_events (snd (external_pipe (fun _ => None) [] ex_hds (ex_io None false) None
                           (ex_os (fun _ => 0%Z) false false)
                           (ex_st [("Cookies.txt", RegularFile 80)] [])))
          ++ [EvRemove "Cookies.txt"])%list
    /\ st_log s2 = st_log (snd (external_pipe (fun _ => None) [] ex_hds (ex_io None false) None
                                 (ex_os (fun _ => 0%Z) false false)
                                 (ex_st [("Cookies.txt", RegularFile 80)] [])))
    /\ st_fs s2 = [].
Proof.
  apply (hds_pipe_cleans_cookies (fun _ => None) [] ex_hds "http://m/manifest.f4m" None "f1"
           (ex_io None false) None (ex_os (fun _ => 0%Z) false false)
           (ex_st [("Cookies.txt", RegularFile 80)] [])).
  - reflexivity.
  - vm_compute. reflexivity.
Defined.

(** [ExternalDownloader.pipe] (the RTMP and fragmented-HTTP backends):
    without a subtitle URL or an ffmpeg binary it runs the backend's pipe
    command alone; when [which] finds ffmpeg it chains it after that
    command, ffmpeg reading the stream from "pipe:0", adding the subtitles
    and writing Matroska to "pipe:1"; when ffmpeg is not found it logs two
    warnings and runs the pipe command alone. *)
Theorem external_pipe_subtitles (which : string -> option string) (environ : Subprocess.env)
        (self : Downloader) (io : IOContext) (os : Os) (st : St) (args : list string)
        (Hargs : build_pipe_args self io os st = (Ok args, st)) :
  external_pipe which environ self io None os st = Subprocess.execute environ [args] None os st
  /\ (ffmpeg_binary io = "" -> forall u,
      external_pipe which environ self io (Some u) os st
      = Subprocess.execute environ [args] None os st)
  /\ (forall u path, u <> "" -> ffmpeg_binary io <> "" ->
      which (ffmpeg_binary io) = Some path -> path <> "" ->
      external_pipe which environ self io (Some u) os st
      = Subprocess.execute environ
          [args; [ffmpeg_binary io; "-y"; "-i"; "pipe:0"; "-i"; u;
                  "-c"; "copy"; "-c:s"; "srt"; "-f"; "matroska"; "pipe:1"]] None os st)
  /\ (forall u, u <> "" -> ffmpeg_binary io <> "" ->
      opt_str_truthy (which (ffmpeg_binary io)) = false ->
      external_pipe which environ self io (Some u) os st
      = Subprocess.execute environ [args] None os
          (with_log st [(WARNING, ffmpeg_binary io ++ " not found. Subtitles disabled.");
                        (WARNING, "Set the path to ffmpeg using --ffmpeg")])).
Proof.
  unfold external_pipe. split; [|split; [|split]].
  - apply (external_pipe_with_run _ _ _ _ _ _ _ _ st st st _ _ None Hargs); [reflexivity|].
    apply mux_subtitles_none. apply orb_true_r.
  - intros Hf u.
    apply (external_pipe_with_run _ _ _ _ _ _ _ _ st st st _ _ None Hargs); [reflexivity|].
    apply mux_subtitles_none. rewrite Hf. reflexivity.
  - intros u path Hu Hf Hw Hp.
    apply (external_pipe_with_run _ _ _ _ _ _ _ _ st st st _ None
             (Some [ffmpeg_binary io; "-y"; "-i"; "pipe:0"; "-i"; u;
                    "-c"; "copy"; "-c:s"; "srt"; "-f"; "matroska"; "pipe:1"]) Hargs);
      [reflexivity|].
    apply mux_subtitles_found; [exact Hf|exact Hu|].
    rewrite Hw. apply str_truthy_ne, Hp.
  - intros u Hu Hf Hw.
    apply (external_pipe_with_run _ _ _ _ _ _ _ _ st st _ _ _ None Hargs); [reflexivity|].
    apply mux_subtitles_missing; assumption.
Qed.

Lemma external_pipe_subtitles_witness :
  external_pipe (fun _ => Some "/usr/bin/ffmpeg") [] ex_rtmp (ex_io None false)
    (Some "http://s/sub.srt") (ex_os (fun _ => 0%Z) false false) (ex_st [] [])
  = Subprocess.execute []
      [["rtmpdump"; "-r"; "rtmp://h/a"; "-o"; "-"];
       ["ffmpeg"; "-y"; "-i"; "pipe:0"; "-i"; "http://s/sub.srt";
        "-c"; "copy"; "-c:s"; "srt"; "-f"; "matroska"; "pipe:1"]] None
      (ex_os (fun _ => 0%Z) false false) (ex_st [] []).
Proof.
  refine (proj1 (proj2 (proj2 (external_pipe_subtitles (fun _ => Some "/usr/bin/ffmpeg") []
             ex_rtmp (ex_io None false) (ex_os (fun _ => 0%Z) false false) (ex_st [] [])
             ["rtmpdump"; "-r"; "rtmp://h/a"; "-o"; "-"] _)))
           "http://s/sub.srt" "/usr/bin/ffmpeg" _ _ _ _);
    (reflexivity || discriminate).
Defined.

(** [HLSAudioBackend.pipe] with a subtitle URL runs the command of the
    video backend it inherits ([build_pipe_with_subtitles_args] is not
    overridden): the same ffmpeg input options as without subtitles, but
    video copy, AAC audio and Matroska output instead of the MP3 output of
    its own [build_pipe_args]. *)
Theorem hls_audio_pipe_subtitles (which : string -> option string) (environ : Subprocess.env)
        (url : string) (output_extension : option string) (long_probe : bool)
        (io : IOContext) (u : string) (os : Os) (st : St)
        (Hu : u <> "") :
  exists pre,
    pipe which environ (new_HLSAudioBackend url output_extension long_probe) io (Some u) os st
    = Subprocess.execute environ
        [pre ++ ["-thread_queue_size"; "512"; "-i"; u; "-vcodec"; "copy"; "-acodec"; "aac";
                 "-scodec"; "copy"; "-f"; "matroska"; "pipe:1"]]%list None os st
    /\ pipe which environ (new_HLSAudioBackend url output_extension long_probe) io None os st
       = Subprocess.execute environ [pre ++ ["-map"; "0:4?"; "-f"; "mp3"; "pipe:1"]]%list
           None os st
    /\ pipe which environ (new_HLSAudioBackend url output_extension long_probe) io (Some u) os st
       = pipe which environ (new_HLSBackend url output_extension long_probe) io (Some u) os st.
Proof.
  set (pre := ([ffmpeg_binary io; "-y"; "-loglevel"; if os_debug os then "info" else "error";
                "-stats"; "-thread_queue_size"; "512"]
               ++ (if long_probe then ["-probesize"; "80000000"] else [])
               ++ ["-i"; url]
               ++ (if opt_int_truthy (duration (download_limits io))
                   then ["-t"; py_str_int (match duration (download_limits io) with
                                           | Some d => d | None => 0%Z end)]
                   else []))%list).
  assert (Hs : forall opts, ffmpeg_command_line url long_probe io opts os st
                            = (Ok (pre ++ opts)%list, st)).
  { intros opts. cbv [ffmpeg_command_line bind ask ret]. unfold pre.
    rewrite <- !app_assoc. reflexivity. }
  exists pre. unfold pipe. cbn [kind new_HLSAudioBackend new_HLSBackend].
  cbv [opt_str_truthy str_or]. rewrite (str_truthy_ne _ Hu). cbv iota.
  split; [|split; [|reflexivity]].
  - rewrite (bind_ok _ _ os st [pre ++ ["-thread_queue_size"; "512"; "-i"; u; "-vcodec";
              "copy"; "-acodec"; "aac"; "-scodec"; "copy"; "-f"; "matroska"; "pipe:1"]]%list st);
      [reflexivity|].
    unfold build_pipe_with_subtitles_args. rewrite (bind_ok _ _ os st _ st (Hs _)).
    reflexivity.
  - rewrite (bind_ok _ _ os st [pre ++ ["-map"; "0:4?"; "-f"; "mp3"; "pipe:1"]]%list st);
      [reflexivity|].
    cbn [build_pipe_args kind new_HLSAudioBackend]. rewrite (bind_ok _ _ os st _ st (Hs _)).
    reflexivity.
Qed.

Lemma hls_audio_pipe_subtitles_witness :
  exists pre,
    pipe (fun _ => None) [] (new_HLSAudioBackend "http://m/a.m3u8" (Some ".mp3") false)
      (ex_io None false) (Some "http://s/sub.srt") (ex_os (fun _ => 0%Z) false false)
      (ex_st [] [])
    = Subprocess.execute []
        [pre ++ ["-thread_queue_size"; "512"; "-i"; "http://s/sub.srt"; "-vcodec"; "copy";
                 "-acodec"; "aac"; "-scodec"; "copy"; "-f"; "matroska"; "pipe:1"]]%list
        None (ex_os (fun _ => 0%Z) false false) (ex_st [] [])
    /\ pipe (fun _ => None) [] (new_HLSAudioBackend "http://m/a.m3u8" (Some ".mp3") false)
         (ex_io None false) None (ex_os (fun _ => 0%Z) false false) (ex_st [] [])
       = Subprocess.execute [] [pre ++ ["-map"; "0:4?"; "-f"; "mp3"; "pipe:1"]]%list
           None (ex_os (fun _ => 0%Z) false false) (ex_st [] [])
    /\ pipe (fun _ => None) [] (new_HLSAudioBackend "http://m/a.m3u8" (Some ".mp3") false)
         (ex_io None false) (Some "http://s/sub.srt") (ex_os (fun _ => 0%Z) false false)
         (ex_st [] [])
       = pipe (fun _ => None) [] (new_HLSBackend "http://m/a.m3u8" (Some ".mp3") false)
           (ex_io None false) (Some "http://s/sub.srt") (ex_os (fun _ => 0%Z) false false)
           (ex_st [] []).
Proof.
  apply (hls_audio_pipe_subtitles (fun _ => None) [] "http://m/a.m3u8" (Some ".mp3") false
           (ex_io None false) "http://s/sub.srt" (ex_os (fun _ => 0%Z) false false)
           (ex_st [] [])).
  discriminate.
Defined.


